(** * A shallow embedding of the CHIP-8 emulator core
    (InstructionSet.c and CHIP8Emulator.c).

    Memory model.  The C globals are modelled as the fields of one record.
    [RAM], [v], [keys] and [screen] are C arrays; they are modelled as total
    functions [Z -> Z] indexed by the C subscript.  The accesses the
    instructions make relative to I (BCD, STA, LDA and the sprite rows of
    DRW) and DRW's accesses to [screen] are checked against the size of
    their array: the code itself checks nothing, and C gives an access
    outside an array no meaning (in a real build it reaches whatever global
    lies next to the array), so the model stops there with the outcome
    [Undefined] and claims nothing about what follows.  [fetch]'s reads at
    PC are taken from the [RAM] function as they are.

    The stack pointer [sp] is an [address *] pointing into [RAM]; it is
    modelled as its byte offset from [&RAM[0]].  The absolute address of
    [RAM] in the process, [ram_base], is a parameter of the functions that
    compare [sp] with an absolute address.  A 2-byte [address] is stored
    little-endian (the x86 layout).

    [exit(EXIT_FAILURE)] is the [Exit] outcome, carrying the message the code
    prints. *)

From Stdlib Require Import ZArith List Bool Lia.
Import ListNotations.
Open Scope Z_scope.

(** ** Constants (InstructionSet.h) *)

Definition STACK_UP : Z := 0xEA0.
Definition STACK_LOW : Z := 0xEBE.
Definition SIZE_MEM : Z := 4096.
Definition SIZE_FS : Z := 80.
Definition NUM_REGS : Z := 16.
Definition NUM_KEYS : Z := 16.
Definition WIDTH : Z := 64.
Definition HEIGHT : Z := 32.

(** ** Field macros *)

Definition INSTR (pc pc_next : Z) : Z := Z.lor (Z.shiftl pc 8) pc_next.
Definition VX (i : Z) : Z := Z.shiftr (Z.land i 0xF00) 8.
Definition VY (i : Z) : Z := Z.shiftr (Z.land i 0xF0) 4.
Definition ADDR (i : Z) : Z := Z.land i 0xFFF.
Definition BYTE (i : Z) : Z := Z.land i 0xFF.
Definition LSN (i : Z) : Z := Z.land i 0xF.
Definition MSN (i : Z) : Z := Z.shiftr (Z.land i 0xF000) 12.
Definition MSBR (x : Z) : Z := Z.shiftr x 7.
Definition LSBI (x : Z) : Z := Z.land x 1.

(** Conversions performed by assignments to [u_int8_t] and to
    [unsigned short] ([address], [u_int16_t]). *)
Definition u8 (x : Z) : Z := x mod 256.
Definition u16 (x : Z) : Z := x mod 65536.

(** ** Machine state: the globals of InstructionSet.h and CHIP8Emulator.h *)

Record state := mkState {
  RAM : Z -> Z;
  PC : Z;
  I : Z;
  v : Z -> Z;
  keys : Z -> Z;
  sp : Z;
  screen : Z -> Z;
  delay_timer : Z;
  sound_timer : Z;
  draw : Z
}.

Definition upd (f : Z -> Z) (k x : Z) : Z -> Z :=
  fun j => if Z.eqb j k then x else f j.

Definition set_RAM s m :=
  mkState m (PC s) (I s) (v s) (keys s) (sp s) (screen s)
    (delay_timer s) (sound_timer s) (draw s).
Definition set_PC s p :=
  mkState (RAM s) p (I s) (v s) (keys s) (sp s) (screen s)
    (delay_timer s) (sound_timer s) (draw s).
Definition set_I s i :=
  mkState (RAM s) (PC s) i (v s) (keys s) (sp s) (screen s)
    (delay_timer s) (sound_timer s) (draw s).
Definition set_v s r :=
  mkState (RAM s) (PC s) (I s) r (keys s) (sp s) (screen s)
    (delay_timer s) (sound_timer s) (draw s).
Definition set_sp s p :=
  mkState (RAM s) (PC s) (I s) (v s) (keys s) p (screen s)
    (delay_timer s) (sound_timer s) (draw s).
Definition set_screen s sc :=
  mkState (RAM s) (PC s) (I s) (v s) (keys s) (sp s) sc
    (delay_timer s) (sound_timer s) (draw s).
Definition set_delay s d :=
  mkState (RAM s) (PC s) (I s) (v s) (keys s) (sp s) (screen s)
    d (sound_timer s) (draw s).
Definition set_sound s d :=
  mkState (RAM s) (PC s) (I s) (v s) (keys s) (sp s) (screen s)
    (delay_timer s) d (draw s).
Definition set_draw s d :=
  mkState (RAM s) (PC s) (I s) (v s) (keys s) (sp s) (screen s)
    (delay_timer s) (sound_timer s) d.
Definition set_keys s k :=
  mkState (RAM s) (PC s) (I s) (v s) k (sp s) (screen s)
    (delay_timer s) (sound_timer s) (draw s).

(** [v[k] = x] with the conversion to [u_int8_t]. *)
Definition set_reg s k x := set_v s (upd (v s) k (u8 x)).

(** ** Outcomes: a step continues, calls [exit(EXIT_FAILURE)], or makes an
    array access outside the array, which C leaves undefined *)

Inductive exit_reason :=
| Stack_overflow
| Empty_stack
| Unknown_instruction (pc i : Z)
| Error_reading_ROM.

Inductive result :=
| Ok (s : state)
| Exit (e : exit_reason)
| Undefined.

Definition bind (r : result) (f : state -> result) : result :=
  match r with
  | Ok s => f s
  | Exit e => Exit e
  | Undefined => Undefined
  end.

Notation "'let!' s := r 'in' e" := (bind r (fun s => e))
  (at level 200, s name, r at level 100, e at level 200).

(** The subscripts [RAM] ([u_int8_t RAM[SIZE_MEM]]) and [screen]
    ([u_int8_t screen[WIDTH * HEIGHT]]) accept. *)
Definition in_RAM (k : Z) : bool := (0 <=? k) && (k <? SIZE_MEM).
Definition in_screen (k : Z) : bool := (0 <=? k) && (k <? WIDTH * HEIGHT).

(** [RAM[k] = x] with the conversion to [u_int8_t]. *)
Definition set_mem s k x : result :=
  if in_RAM k then Ok (set_RAM s (upd (RAM s) k (u8 x))) else Undefined.

(** ** The stack: two-byte [address] cells in [RAM] *)

Definition store16 (m : Z -> Z) (k a : Z) : Z -> Z :=
  upd (upd m k (Z.land a 0xFF)) (k + 1) (Z.land (Z.shiftr a 8) 0xFF).

Definition load16 (m : Z -> Z) (k : Z) : Z :=
  m k + 256 * m (k + 1).

Section Stack.
Variable ram_base : Z.

(** [push]: [if (sp < (address* ) STACK_UP) exit; *(sp--) = addr;]
    The guard compares the pointer [sp] with the absolute address [STACK_UP]. *)
Definition push (addr : Z) (s : state) : result :=
  if ram_base + sp s <? STACK_UP then Exit Stack_overflow
  else Ok (set_sp (set_RAM s (store16 (RAM s) (sp s) (u16 addr))) (sp s - 2)).

(** [pop]: [if (sp == (address* ) STACK_LOW) exit; return *(++sp);] *)
Definition pop (s : state) : Z * result :=
  if ram_base + sp s =? STACK_LOW then (0, Exit Empty_stack)
  else (load16 (RAM s) (sp s + 2), Ok (set_sp s (sp s + 2))).

End Stack.

(** ** The instructions (InstructionSet.c) *)

Definition zseq (n : Z) : list Z := map Z.of_nat (seq 0 (Z.to_nat n)).

(** [memset(a, 0, n)] on an array modelled as a function. *)
Definition clear_range (m : Z -> Z) (n : Z) : Z -> Z :=
  fun k => if (0 <=? k) && (k <? n) then 0 else m k.

Definition CLS (s : state) : state :=
  set_screen s (clear_range (screen s) (WIDTH * HEIGHT)).

Section Instructions.
Variable ram_base : Z.

Definition RET (s : state) : result :=
  let '(a, r) := pop ram_base s in
  let! s1 := r in Ok (set_PC s1 (u16 (a + 2))).

Definition JP (i : Z) (s : state) : state := set_PC s (ADDR i).

Definition CALL (i : Z) (s : state) : result :=
  let! s1 := push ram_base (PC s - 2) s in Ok (set_PC s1 (ADDR i)).

End Instructions.

Definition skip_if (b : bool) (s : state) : state :=
  if b then set_PC s (u16 (PC s + 2)) else s.

Definition SE (i : Z) (s : state) : state :=
  skip_if (v s (VX i) =? BYTE i) s.
Definition SNEI (i : Z) (s : state) : state :=
  skip_if (negb (v s (VX i) =? BYTE i)) s.
Definition SR (i : Z) (s : state) : state :=
  skip_if (v s (VX i) =? v s (VY i)) s.
Definition LDB (i : Z) (s : state) : state := set_reg s (VX i) (BYTE i).
Definition ADDI (i : Z) (s : state) : state :=
  set_reg s (VX i) (v s (VX i) + BYTE i).
Definition LDR (i : Z) (s : state) : state := set_reg s (VX i) (v s (VY i)).
Definition OR (i : Z) (s : state) : state :=
  set_reg s (VX i) (Z.lor (v s (VX i)) (v s (VY i))).
Definition AND (i : Z) (s : state) : state :=
  set_reg s (VX i) (Z.land (v s (VX i)) (v s (VY i))).
Definition XOR (i : Z) (s : state) : state :=
  set_reg s (VX i) (Z.lxor (v s (VX i)) (v s (VY i))).

(** [v[0xF] = v[VX(i)] > 0xFF - v[VY(i)] ? 1 : 0; v[VX(i)] += v[VY(i)];]
    The second statement reads the registers after the first has written VF. *)
Definition ADD (i : Z) (s : state) : state :=
  let s1 := set_reg s 0xF (if v s (VX i) >? 0xFF - v s (VY i) then 1 else 0) in
  set_reg s1 (VX i) (v s1 (VX i) + v s1 (VY i)).

Definition SUB (i : Z) (s : state) : state :=
  let s1 := set_reg s 0xF (if v s (VY i) >? v s (VX i) then 0 else 1) in
  set_reg s1 (VX i) (v s1 (VX i) - v s1 (VY i)).

Definition SHR (i : Z) (s : state) : state :=
  let s1 := set_reg s 0xF (LSBI (v s (VX i))) in
  set_reg s1 (VX i) (Z.shiftr (v s1 (VX i)) 1).

Definition SUBN (i : Z) (s : state) : state :=
  let s1 := set_reg s 0xF (if v s (VX i) >? v s (VY i) then 0 else 1) in
  set_reg s1 (VX i) (v s1 (VY i) - v s1 (VX i)).

Definition SHL (i : Z) (s : state) : state :=
  let s1 := set_reg s 0xF (MSBR (v s (VX i))) in
  set_reg s1 (VX i) (Z.shiftl (v s1 (VX i)) 1).

Definition SNE (i : Z) (s : state) : state :=
  skip_if (negb (v s (VX i) =? v s (VY i))) s.
Definition LDI (i : Z) (s : state) : state := set_I s (ADDR i).
Definition JPR (i : Z) (s : state) : state := set_PC s (u16 (ADDR i + v s 0x0)).

(** [rnd] is the value returned by [rand()] for this call. *)
Definition RND (rnd : Z) (i : Z) (s : state) : state :=
  set_reg s (VX i) (Z.land (rnd mod 256) (BYTE i)).

(** The inner body of [DRW]'s loops: pixel [x] of sprite row [y], whose byte
    is [p], drawn at origin [(Vx, Vy)]:
    [if (p & (0x80 >> x)) { if (screen[idx]) v[0xF] = 1; screen[idx] ^= 1; }] *)
Definition DRW_pixel (Vx Vy p y : Z) (r : result) (x : Z) : result :=
  let! s := r in
  if Z.land p (Z.shiftr 0x80 x) =? 0 then Ok s
  else
    let idx := x + Vx + (y + Vy) * WIDTH in
    if in_screen idx then
      let s1 := if screen s idx =? 0 then s else set_reg s 0xF 1 in
      Ok (set_screen s1 (upd (screen s1) idx (Z.lxor (screen s1 idx) 1)))
    else Undefined.

(** Row [y]: [p = RAM[I + y];] then the eight pixels. *)
Definition DRW_row (Vx Vy : Z) (r : result) (y : Z) : result :=
  let! s := r in
  if in_RAM (I s + y) then
    fold_left (DRW_pixel Vx Vy (RAM s (I s + y)) y) (zseq 8) (Ok s)
  else Undefined.

(** [Vx], [Vy] and [height] are read first, then [v[0xF] = 0], then the
    rows. *)
Definition DRW (i : Z) (s : state) : result :=
  let Vx := v s (VX i) in
  let Vy := v s (VY i) in
  let height := LSN i in
  let s1 := set_reg s 0xF 0 in
  fold_left (DRW_row Vx Vy) (zseq height) (Ok s1).

Definition SKP (i : Z) (s : state) : state :=
  skip_if (negb (keys s (v s (VX i)) =? 0)) s.
Definition SKNP (i : Z) (s : state) : state :=
  skip_if (keys s (v s (VX i)) =? 0) s.
Definition LDD (i : Z) (s : state) : state := set_reg s (VX i) (delay_timer s).

(** The loop of [LDK]: the first [j < NUM_REGS] with [keys[j]] non-zero. *)
Definition first_key (k : Z -> Z) : option Z :=
  find (fun j => negb (k j =? 0)) (zseq NUM_REGS).

Definition LDK (i : Z) (s : state) : state :=
  match first_key (keys s) with
  | Some j => set_reg s (VX i) j
  | None => set_PC s (u16 (PC s - 2))
  end.

Definition STD (i : Z) (s : state) : state := set_delay s (v s (VX i)).
Definition STS (i : Z) (s : state) : state := set_sound s (v s (VX i)).
Definition IINC (i : Z) (s : state) : state :=
  let s1 := set_reg s 0xF (if I s + v s (VX i) >? 0xFFF then 1 else 0) in
  set_I s1 (u16 (I s1 + v s1 (VX i))).
Definition LDF (i : Z) (s : state) : state := set_I s (u16 (v s (VX i) * 5)).

Definition BCD (i : Z) (s : state) : result :=
  let! s1 := set_mem s (I s) (v s (VX i) / 100) in
  let! s2 := set_mem s1 (I s1 + 1) ((v s1 (VX i) / 10) mod 10) in
  set_mem s2 (I s2 + 2) ((v s2 (VX i) mod 100) mod 10).

Definition STA (i : Z) (s : state) : result :=
  fold_left (fun r j => let! s := r in set_mem s (I s + j) (v s j))
    (zseq (VX i + 1)) (Ok s).

Definition LDA (i : Z) (s : state) : result :=
  fold_left (fun r j => let! s := r in
               if in_RAM (I s + j) then Ok (set_reg s j (RAM s (I s + j)))
               else Undefined)
    (zseq (VX i + 1)) (Ok s).

(** ** Fetch, decode and execute (CHIP8Emulator.c) *)

Definition font_set : list Z :=
  [ 0xF0; 0x90; 0x90; 0x90; 0xF0;
    0x20; 0x60; 0x20; 0x20; 0x70;
    0xF0; 0x10; 0xF0; 0x80; 0xF0;
    0xF0; 0x10; 0xF0; 0x10; 0xF0;
    0x90; 0x90; 0xF0; 0x10; 0x10;
    0xF0; 0x80; 0xF0; 0x10; 0xF0;
    0xF0; 0x80; 0xF0; 0x90; 0xF0;
    0xF0; 0x10; 0x20; 0x40; 0x40;
    0xF0; 0x90; 0xF0; 0x90; 0xF0;
    0xF0; 0x90; 0xF0; 0x10; 0xF0;
    0xF0; 0x90; 0xF0; 0x90; 0x90;
    0xE0; 0x90; 0xE0; 0x90; 0xE0;
    0xF0; 0x80; 0x80; 0x80; 0xF0;
    0xE0; 0x90; 0x90; 0x90; 0xE0;
    0xF0; 0x80; 0xF0; 0x80; 0xF0;
    0xF0; 0x80; 0xF0; 0x80; 0x80 ].

(** [memcpy(dst + off, src, len)] for a list [src] of [len] bytes. *)
Definition copy_bytes (m : Z -> Z) (off : Z) (src : list Z) : Z -> Z :=
  fun k =>
    if (off <=? k) && (k <? off + Z.of_nat (length src))
    then nth (Z.to_nat (k - off)) src 0 else m k.

(** [initialize] starts from whatever the globals held before: only the
    bytes it clears or sets are fixed afterwards. *)
Definition initialize (s0 : state) : state :=
  let s1 := set_PC s0 0x200 in
  let s2 := set_I s1 0 in
  let s3 := set_sp s2 STACK_LOW in
  let s4 := set_v s3 (clear_range (v s3) NUM_REGS) in
  let s5 := set_keys s4 (clear_range (keys s4) NUM_KEYS) in
  let s6 := CLS s5 in
  let s7 := set_RAM s6 (clear_range (RAM s6) SIZE_MEM) in
  let s8 := set_RAM s7 (copy_bytes (RAM s7) 0 font_set) in
  let s9 := set_delay (set_sound s8 0) 0 in
  set_draw s9 0.

(** [load_source]: [fread(RAM + 0x200, 1, 0xCA0, rom)] copies at most
    [0xCA0] bytes of the ROM; reading no byte is an error. *)
Definition load_source (rom : list Z) (s : state) : result :=
  match firstn 0xCA0 rom with
  | [] => Exit Error_reading_ROM
  | bytes => Ok (set_RAM s (copy_bytes (RAM s) 0x200 bytes))
  end.

Definition boot (s0 : state) (rom : list Z) : result :=
  load_source rom (initialize s0).

(** [fetch]: the word at [PC], high byte first, as an [instruction]
    ([unsigned short]); [PC += 2]. *)
Definition fetch (s : state) : Z * state :=
  (u16 (INSTR (RAM s (PC s)) (RAM s (PC s + 1))), set_PC s (u16 (PC s + 2))).

Section Execute.
Variable ram_base : Z.
(** The value [rand()] returns if this instruction calls it. *)
Variable rnd : Z.

Definition unknown (i : Z) (s : state) : result :=
  Exit (Unknown_instruction (PC s - 2) i).

Definition execute (i : Z) (s : state) : result :=
  let msn := MSN i in
  let lsn := LSN i in
  if msn =? 0x0 then
    if i =? 0x00E0 then Ok (CLS s)
    else if i =? 0x00EE then RET ram_base s
    else unknown i s
  else if msn =? 0x1 then Ok (JP i s)
  else if msn =? 0x2 then CALL ram_base i s
  else if msn =? 0x3 then Ok (SE i s)
  else if msn =? 0x4 then Ok (SNEI i s)
  else if msn =? 0x5 then
    if lsn =? 0 then Ok (SR i s) else unknown i s
  else if msn =? 0x6 then Ok (LDB i s)
  else if msn =? 0x7 then Ok (ADDI i s)
  else if msn =? 0x8 then
    if lsn =? 0x0 then Ok (LDR i s)
    else if lsn =? 0x1 then Ok (OR i s)
    else if lsn =? 0x2 then Ok (AND i s)
    else if lsn =? 0x3 then Ok (XOR i s)
    else if lsn =? 0x4 then Ok (ADD i s)
    else if lsn =? 0x5 then Ok (SUB i s)
    else if lsn =? 0x6 then Ok (SHR i s)
    else if lsn =? 0x7 then Ok (SUBN i s)
    else if lsn =? 0xE then Ok (SHL i s)
    else unknown i s
  else if msn =? 0x9 then
    if lsn =? 0 then Ok (SNE i s) else unknown i s
  else if msn =? 0xA then Ok (LDI i s)
  else if msn =? 0xB then Ok (JPR i s)
  else if msn =? 0xC then Ok (RND rnd i s)
  else if msn =? 0xD then let! s1 := DRW i s in Ok (set_draw s1 1)
  else if msn =? 0xE then
    if BYTE i =? 0x9E then Ok (SKP i s)
    else if BYTE i =? 0xA1 then Ok (SKNP i s)
    else unknown i s
  else (* msn = 0xF *)
    let b := BYTE i in
    if b =? 0x07 then Ok (LDD i s)
    else if b =? 0x0A then Ok (LDK i s)
    else if b =? 0x15 then Ok (STD i s)
    else if b =? 0x18 then Ok (STS i s)
    else if b =? 0x1E then Ok (IINC i s)
    else if b =? 0x29 then Ok (LDF i s)
    else if b =? 0x33 then BCD i s
    else if b =? 0x55 then STA i s
    else if b =? 0x65 then LDA i s
    else unknown i s.

(** One iteration of [run]'s inner loop: [execute(fetch())]. *)
Definition step (s : state) : result :=
  let '(i, s1) := fetch s in execute i s1.

End Execute.

(** [_decrement_timers] *)
Definition decrement_timers (s : state) : state :=
  let s1 := if delay_timer s >? 0 then set_delay s (delay_timer s - 1) else s in
  if sound_timer s1 >? 0 then set_sound s1 (sound_timer s1 - 1) else s1.

(** [n] steps with the keys left as they are; [rnds n] is the value of
    [rand()] for the step taken when [n] steps remain. *)
Fixpoint run_steps (ram_base : Z) (rnds : nat -> Z) (n : nat) (s : state)
  : result :=
  match n with
  | O => Ok s
  | S n' => let! s1 := step ram_base (rnds n) s in run_steps ram_base rnds n' s1
  end.

(** States reachable from a freshly booted machine by steps that do not
    exit; the host may rewrite the keys between steps. *)
Inductive reachable (ram_base : Z) (s0 : state) (rom : list Z) : state -> Prop :=
| reach_boot s : boot s0 rom = Ok s -> reachable ram_base s0 rom s
| reach_step s s' rnd : reachable ram_base s0 rom s ->
    step ram_base rnd s = Ok s' -> reachable ram_base s0 rom s'
| reach_keys s k : reachable ram_base s0 rom s ->
    reachable ram_base s0 rom (set_keys s k).

(** A machine whose globals all hold zero before [initialize]. *)
Definition zero_state : state :=
  mkState (fun _ => 0) 0 0 (fun _ => 0) (fun _ => 0) 0 (fun _ => 0) 0 0 0.

(** [n] consecutive [push]es of the addresses [addrs]. *)
Definition push_all (ram_base : Z) (addrs : list Z) (s : state) : result :=
  fold_left (fun r a => let! s := r in push ram_base a s) addrs (Ok s).

(** The instruction [step] would execute next. *)
Definition instr_at (s : state) : Z := fst (fetch s).

(** Sprite bit [x] of the byte [p] is set ([p & (0x80 >> x)]). *)
Definition sprite_bit (p x : Z) : bool := negb (Z.land p (Z.shiftr 0x80 x) =? 0).

(** The screen cells [DRW] toggles: the linear index
    [x + Vx + (y + Vy) * WIDTH] of every set bit [x] of every sprite row [y]. *)
Definition DRW_hit (m : Z -> Z) (Ireg Vx Vy n k : Z) : bool :=
  existsb (fun y =>
    existsb (fun x => sprite_bit (m (Ireg + y)) x && (k =? x + Vx + (y + Vy) * WIDTH))
      (zseq 8))
    (zseq n).

(** ** The host display (CHIP8Emulator.c, InstructionSet.h) *)

Definition EMU_W : Z := 640.
Definition EMU_H : Z := 320.
Definition BLACK : Z := 0xFFFFFFFF.
Definition WHITE : Z := 0.

(** [refresh_screen]: the emulator surface's 32-bit pixels [px] after the
    redraw from the CHIP-8 framebuffer [scr].  [memset] clears
    [EMU_W * EMU_H] bytes, that is the first quarter of the pixels. *)
Definition refresh_screen (scr px : Z -> Z) : Z -> Z :=
  fold_left (fun px x =>
    fold_left (fun px y =>
      upd px (x + y * EMU_W)
        (if negb (scr (x / 10 + (y / 10) * WIDTH) =? 0) then BLACK else WHITE))
      (zseq EMU_H) px)
    (zseq EMU_W) (clear_range px (EMU_W * EMU_H / 4)).

(** ** Auxiliary definitions *)


(** The instruction forms named in the comments of [execute]'s switch
    ("00E0 CLS", "1nnn JP", "8xy4 ADD", "Fx65 LDA", ...): the mask of the
    fixed nibbles and the value they must hold. *)
Definition opcode_table : list (Z * Z) :=
  [ (0xFFFF, 0x00E0); (0xFFFF, 0x00EE);
    (0xF000, 0x1000); (0xF000, 0x2000); (0xF000, 0x3000); (0xF000, 0x4000);
    (0xF00F, 0x5000); (0xF000, 0x6000); (0xF000, 0x7000);
    (0xF00F, 0x8000); (0xF00F, 0x8001); (0xF00F, 0x8002); (0xF00F, 0x8003);
    (0xF00F, 0x8004); (0xF00F, 0x8005); (0xF00F, 0x8006); (0xF00F, 0x8007);
    (0xF00F, 0x800E); (0xF00F, 0x9000);
    (0xF000, 0xA000); (0xF000, 0xB000); (0xF000, 0xC000); (0xF000, 0xD000);
    (0xF0FF, 0xE09E); (0xF0FF, 0xE0A1);
    (0xF0FF, 0xF007); (0xF0FF, 0xF00A); (0xF0FF, 0xF015); (0xF0FF, 0xF018);
    (0xF0FF, 0xF01E); (0xF0FF, 0xF029); (0xF0FF, 0xF033); (0xF0FF, 0xF055);
    (0xF0FF, 0xF065) ].

Definition known_opcode (i : Z) : bool :=
  existsb (fun '(m, p) => Z.land i m =? p) opcode_table.

(** The outcome of [execute] is the "Unknown instruction" exit. *)
Definition is_unknown (r : result) : bool :=
  match r with Exit (Unknown_instruction _ _) => true | _ => false end.

(** A set bit of the sprite [n] rows high at [RAM[Ireg..]] meets a lit cell
    of [scr] when drawn at [(Vx, Vy)]. *)
Definition DRW_collide (m : Z -> Z) (Ireg Vx Vy n : Z) (scr : Z -> Z) : bool :=
  existsb (fun y =>
    existsb (fun x => sprite_bit (m (Ireg + y)) x &&
                      negb (scr (x + Vx + (y + Vy) * WIDTH) =? 0))
      (zseq 8))
    (zseq n).

(** Every access of DRW stays inside its array: each sprite row
    [RAM[Ireg + y]] lies in RAM and each set bit lands on one of the
    [WIDTH * HEIGHT] cells. *)
Definition DRW_defined (m : Z -> Z) (Ireg Vx Vy n : Z) : bool :=
  forallb (fun y =>
    in_RAM (Ireg + y) &&
    forallb (fun x => negb (sprite_bit (m (Ireg + y)) x) ||
                      in_screen (x + Vx + (y + Vy) * WIDTH))
      (zseq 8))
    (zseq n).

(** What DRW leaves alone: everything but the screen and VF. *)
Definition DRW_frame (s s' : state) : Prop :=
  RAM s' = RAM s /\ PC s' = PC s /\ I s' = I s /\ keys s' = keys s /\
  sp s' = sp s /\ delay_timer s' = delay_timer s /\
  sound_timer s' = sound_timer s /\ draw s' = draw s /\
  (forall j, j <> 0xF -> v s' j = v s j).

(** The state a computation reached, or [d] if it did not complete. *)
Definition ok_or (r : result) (d : state) : state :=
  match r with Ok s => s | _ => d end.

(** The ranges the globals' types and the instructions keep: V0..VF and
    the timers are bytes, I is a 16-bit value, the framebuffer cells and the
    draw flag are 0 or 1. *)
Definition wf (s : state) : Prop :=
  (forall j, 0 <= j < NUM_REGS -> 0 <= v s j < 256) /\
  0 <= I s < 65536 /\
  0 <= delay_timer s < 256 /\ 0 <= sound_timer s < 256 /\
  (forall k, 0 <= k < WIDTH * HEIGHT -> screen s k = 0 \/ screen s k = 1) /\
  (draw s = 0 \/ draw s = 1).

(** The machine used by the witnesses below: registers [V0..] from [regs],
    memory cleared, everything else zero. *)
Definition regs_state (regs : list Z) : state :=
  set_v zero_state (fun j => nth (Z.to_nat j) regs 0).

(** ** Basic facts *)

Lemma step_unfold ram_base rnd s :
  step ram_base rnd s = execute ram_base rnd (instr_at s) (set_PC s (u16 (PC s + 2))).
Proof. reflexivity. Qed.

Lemma upd_eq f k x : upd f k x k = x.
Proof. unfold upd. now rewrite Z.eqb_refl. Qed.

Lemma upd_neq f k x j : j <> k -> upd f k x j = f j.
Proof. intros H. unfold upd. apply Z.eqb_neq in H. now rewrite H. Qed.

Lemma load16_store16 m k a :
  0 <= a < 65536 -> load16 (store16 m k a) k = a.
Proof.
  intros Ha. unfold load16, store16.
  rewrite upd_eq, upd_neq by lia. rewrite upd_eq.
  change 255 with (Z.ones 8).
  rewrite !Z.land_ones, Z.shiftr_div_pow2 by lia.
  change (2 ^ 8) with 256.
  rewrite (Z.mod_small (a / 256)) by (split; [apply Z.div_pos | apply Z.div_lt_upper_bound]; lia).
  pose proof (Z.div_mod a 256). lia.
Qed.

Lemma u16_range x : 0 <= u16 x < 65536.
Proof. unfold u16. apply Z.mod_pos_bound. lia. Qed.

Lemma u16_small x : 0 <= x < 65536 -> u16 x = x.
Proof. unfold u16. apply Z.mod_small. Qed.

Lemma u16_add_sub x : u16 (u16 (u16 (x + 2) - 2) + 2) = u16 (x + 2).
Proof.
  unfold u16. rewrite Zminus_mod_idemp_l, Z.add_mod_idemp_l by lia.
  f_equal. lia.
Qed.

Lemma set_PC_PC s : set_PC s (PC s) = s.
Proof. destruct s; reflexivity. Qed.

Lemma set_PC_twice s a b : set_PC (set_PC s a) b = set_PC s b.
Proof. destruct s; reflexivity. Qed.

(** [zseq (S n)] ends with [n]: the loops run their bodies in order. *)
Lemma zseq_S n : zseq (Z.of_nat (S n)) = zseq (Z.of_nat n) ++ [Z.of_nat n].
Proof.
  unfold zseq. rewrite !Nat2Z.id, seq_S, map_app. reflexivity.
Qed.

Lemma in_zseq j n : In j (zseq n) <-> 0 <= j < n.
Proof.
  unfold zseq. rewrite in_map_iff. split.
  - intros [k [<- Hk]]. apply in_seq in Hk. lia.
  - intros Hj. exists (Z.to_nat j). rewrite in_seq. split; lia.
Qed.

(** Reduce the decoding tests of [execute] once a field is known. *)
Ltac decide_tests := cbv beta iota delta [Z.eqb Pos.eqb].
Ltac decode H := unfold execute; cbv beta zeta; rewrite H; decide_tests.

(** ** Array accesses *)

Lemma zseq_to_nat n : zseq n = zseq (Z.of_nat (Z.to_nat n)).
Proof. unfold zseq. rewrite Nat2Z.id. reflexivity. Qed.

Lemma existsb_app_single {A} (f : A -> bool) l a :
  existsb f (l ++ [a]) = existsb f l || f a.
Proof. rewrite existsb_app. simpl. rewrite orb_false_r. reflexivity. Qed.

Lemma existsb_ext_in {A} (f g : A -> bool) l :
  (forall x, In x l -> f x = g x) -> existsb f l = existsb g l.
Proof.
  induction l as [|a l IH]; intros H; [reflexivity|]. simpl.
  rewrite H by (left; reflexivity). rewrite IH by (intros x Hx; apply H; right; exact Hx).
  reflexivity.
Qed.

Lemma VX_nonneg i : 0 <= VX i.
Proof.
  unfold VX. apply Z.shiftr_nonneg, Z.land_nonneg. right. lia.
Qed.

Lemma VX_range i : 0 <= VX i < 16.
Proof.
  unfold VX. rewrite Z.shiftr_land. change (Z.shiftr 0xF00 8) with (Z.ones 4).
  rewrite Z.land_ones by lia. apply Z.mod_pos_bound. lia.
Qed.

Lemma LSN_nonneg i : 0 <= LSN i.
Proof. unfold LSN. apply Z.land_nonneg. right. lia. Qed.

Lemma in_RAM_iff k : in_RAM k = true <-> 0 <= k < SIZE_MEM.
Proof. unfold in_RAM. rewrite andb_true_iff, Z.leb_le, Z.ltb_lt. tauto. Qed.

Lemma in_screen_iff k : in_screen k = true <-> 0 <= k < WIDTH * HEIGHT.
Proof. unfold in_screen. rewrite andb_true_iff, Z.leb_le, Z.ltb_lt. tauto. Qed.

(** The offsets [0 <= j < n] from [b] all lie in RAM. *)
Lemma forallb_in_RAM b n :
  forallb (fun j => in_RAM (b + j)) (zseq n) = true <->
  n <= 0 \/ (0 <= b /\ b + n <= SIZE_MEM).
Proof.
  rewrite forallb_forall. split.
  - intros H. destruct (Z.leb_spec n 0) as [Hn|Hn]; [left; exact Hn|right].
    pose proof (H 0 ltac:(apply in_zseq; lia)) as H0.
    pose proof (H (n - 1) ltac:(apply in_zseq; lia)) as H1.
    apply in_RAM_iff in H0. apply in_RAM_iff in H1. lia.
  - intros Hr j Hj. apply in_zseq in Hj. apply in_RAM_iff. lia.
Qed.

Lemma set_RAM_frame s sn m : sn = set_RAM s (RAM sn) -> set_RAM sn m = set_RAM s m.
Proof. intros H. rewrite H. reflexivity. Qed.

Lemma set_v_frame s sn w : sn = set_v s (v sn) -> set_v sn w = set_v s w.
Proof. intros H. rewrite H. reflexivity. Qed.

(** *** LD [I],X *)

Lemma STA_loop_ok n s :
  forallb (fun j => in_RAM (I s + j)) (zseq (Z.of_nat n)) = true ->
  exists s', fold_left (fun r j => let! s := r in set_mem s (I s + j) (v s j))
               (zseq (Z.of_nat n)) (Ok s) = Ok s' /\
    s' = set_RAM s (RAM s') /\
    forall k, RAM s' k =
      if (I s <=? k) && (k <? I s + Z.of_nat n) then u8 (v s (k - I s)) else RAM s k.
Proof.
  induction n as [|n IH]; intros Hall.
  - exists s. split; [reflexivity|]. split; [destruct s; reflexivity|].
    intros k. destruct (Z.leb_spec (I s) k), (Z.ltb_spec k (I s + Z.of_nat 0));
      simpl; try reflexivity; lia.
  - rewrite zseq_S, forallb_app in Hall. apply andb_true_iff in Hall as [Hall Hn].
    cbn [forallb] in Hn. rewrite andb_true_r in Hn.
    destruct (IH Hall) as (sn & Hr & Heq & Hm).
    rewrite zseq_S, fold_left_app. cbn [fold_left]. rewrite Hr. cbn [bind].
    assert (HI : I sn = I s) by (rewrite Heq; reflexivity).
    assert (Hv : v sn = v s) by (rewrite Heq; reflexivity).
    unfold set_mem. rewrite HI, Hv, Hn.
    eexists; split; [reflexivity|]. split.
    + rewrite (set_RAM_frame s sn) by exact Heq. reflexivity.
    + intros k. cbn [RAM set_RAM]. unfold upd.
      destruct (Z.eqb_spec k (I s + Z.of_nat n)) as [->|Hne].
      * replace (I s <=? _) with true by (symmetry; apply Z.leb_le; lia).
        replace (_ <? I s + Z.of_nat (S n)) with true by (symmetry; apply Z.ltb_lt; lia).
        simpl. f_equal. f_equal. lia.
      * rewrite Hm.
        destruct (Z.leb_spec (I s) k), (Z.ltb_spec k (I s + Z.of_nat n)),
                 (Z.ltb_spec k (I s + Z.of_nat (S n))); simpl; try reflexivity; lia.
Qed.

Lemma STA_loop_undef n s :
  forallb (fun j => in_RAM (I s + j)) (zseq (Z.of_nat n)) = false ->
  fold_left (fun r j => let! s := r in set_mem s (I s + j) (v s j))
    (zseq (Z.of_nat n)) (Ok s) = Undefined.
Proof.
  induction n as [|n IH]; intros Hall; [discriminate|].
  rewrite zseq_S, forallb_app in Hall. cbn [forallb] in Hall.
  rewrite andb_true_r in Hall.
  rewrite zseq_S, fold_left_app. cbn [fold_left].
  destruct (forallb _ (zseq (Z.of_nat n))) eqn:E.
  - destruct (STA_loop_ok n s E) as (sn & Hr & Heq & _).
    rewrite Hr. cbn [bind andb] in Hall |- *.
    assert (HI : I sn = I s) by (rewrite Heq; reflexivity).
    unfold set_mem. rewrite HI, Hall. reflexivity.
  - rewrite IH by reflexivity. reflexivity.
Qed.

Lemma STA_ok i s :
  0 <= I s -> I s + VX i < SIZE_MEM ->
  exists s', STA i s = Ok s' /\ s' = set_RAM s (RAM s') /\
    forall k, RAM s' k =
      if (I s <=? k) && (k <=? I s + VX i) then u8 (v s (k - I s)) else RAM s k.
Proof.
  intros H1 H2. pose proof (VX_nonneg i). unfold STA.
  rewrite zseq_to_nat.
  destruct (STA_loop_ok (Z.to_nat (VX i + 1)) s) as (s' & Hr & Heq & Hm).
  { apply forallb_in_RAM. right. lia. }
  exists s'. split; [exact Hr|]. split; [exact Heq|].
  intros k. rewrite Hm, Z2Nat.id by lia.
  destruct (Z.ltb_spec k (I s + (VX i + 1))), (Z.leb_spec k (I s + VX i));
    try reflexivity; lia.
Qed.

Lemma STA_undef i s :
  ~ (0 <= I s /\ I s + VX i < SIZE_MEM) -> STA i s = Undefined.
Proof.
  intros H. pose proof (VX_nonneg i). unfold STA. rewrite zseq_to_nat.
  apply STA_loop_undef, not_true_iff_false. rewrite forallb_in_RAM, Z2Nat.id by lia. lia.
Qed.

(** *** LD X,[I] *)

Lemma LDA_loop_ok n s :
  forallb (fun j => in_RAM (I s + j)) (zseq (Z.of_nat n)) = true ->
  exists s', fold_left (fun r j => let! s := r in
                          if in_RAM (I s + j) then Ok (set_reg s j (RAM s (I s + j)))
                          else Undefined)
               (zseq (Z.of_nat n)) (Ok s) = Ok s' /\
    s' = set_v s (v s') /\
    forall j, v s' j =
      if (0 <=? j) && (j <? Z.of_nat n) then u8 (RAM s (I s + j)) else v s j.
Proof.
  induction n as [|n IH]; intros Hall.
  - exists s. split; [reflexivity|]. split; [destruct s; reflexivity|].
    intros j. destruct (Z.leb_spec 0 j), (Z.ltb_spec j (Z.of_nat 0));
      simpl; try reflexivity; lia.
  - rewrite zseq_S, forallb_app in Hall. apply andb_true_iff in Hall as [Hall Hn].
    cbn [forallb] in Hn. rewrite andb_true_r in Hn.
    destruct (IH Hall) as (sn & Hr & Heq & Hv).
    rewrite zseq_S, fold_left_app. cbn [fold_left]. rewrite Hr. cbn [bind].
    assert (HI : I sn = I s) by (rewrite Heq; reflexivity).
    assert (Hm : RAM sn = RAM s) by (rewrite Heq; reflexivity).
    rewrite HI, Hm, Hn.
    eexists; split; [reflexivity|]. split.
    + unfold set_reg. rewrite (set_v_frame s sn) by exact Heq. reflexivity.
    + intros j. unfold set_reg. cbn [v set_v]. unfold upd.
      destruct (Z.eqb_spec j (Z.of_nat n)) as [->|Hne].
      * replace (0 <=? _) with true by (symmetry; apply Z.leb_le; lia).
        replace (_ <? Z.of_nat (S n)) with true by (symmetry; apply Z.ltb_lt; lia).
        reflexivity.
      * rewrite Hv.
        destruct (Z.leb_spec 0 j), (Z.ltb_spec j (Z.of_nat n)),
                 (Z.ltb_spec j (Z.of_nat (S n))); simpl; try reflexivity; lia.
Qed.

Lemma LDA_loop_undef n s :
  forallb (fun j => in_RAM (I s + j)) (zseq (Z.of_nat n)) = false ->
  fold_left (fun r j => let! s := r in
               if in_RAM (I s + j) then Ok (set_reg s j (RAM s (I s + j)))
               else Undefined)
    (zseq (Z.of_nat n)) (Ok s) = Undefined.
Proof.
  induction n as [|n IH]; intros Hall; [discriminate|].
  rewrite zseq_S, forallb_app in Hall. cbn [forallb] in Hall.
  rewrite andb_true_r in Hall.
  rewrite zseq_S, fold_left_app. cbn [fold_left].
  destruct (forallb _ (zseq (Z.of_nat n))) eqn:E.
  - destruct (LDA_loop_ok n s E) as (sn & Hr & Heq & _).
    rewrite Hr. cbn [bind andb] in Hall |- *.
    assert (HI : I sn = I s) by (rewrite Heq; reflexivity).
    rewrite HI, Hall. reflexivity.
  - rewrite IH by reflexivity. reflexivity.
Qed.

Lemma LDA_ok i s :
  0 <= I s -> I s + VX i < SIZE_MEM ->
  exists s', LDA i s = Ok s' /\ s' = set_v s (v s') /\
    forall j, v s' j =
      if (0 <=? j) && (j <=? VX i) then u8 (RAM s (I s + j)) else v s j.
Proof.
  intros H1 H2. pose proof (VX_nonneg i). unfold LDA.
  rewrite zseq_to_nat.
  destruct (LDA_loop_ok (Z.to_nat (VX i + 1)) s) as (s' & Hr & Heq & Hv).
  { apply forallb_in_RAM. right. lia. }
  exists s'. split; [exact Hr|]. split; [exact Heq|].
  intros j. rewrite Hv, Z2Nat.id by lia.
  destruct (Z.ltb_spec j (VX i + 1)), (Z.leb_spec j (VX i)); try reflexivity; lia.
Qed.

Lemma LDA_undef i s :
  ~ (0 <= I s /\ I s + VX i < SIZE_MEM) -> LDA i s = Undefined.
Proof.
  intros H. pose proof (VX_nonneg i). unfold LDA. rewrite zseq_to_nat.
  apply LDA_loop_undef, not_true_iff_false. rewrite forallb_in_RAM, Z2Nat.id by lia. lia.
Qed.

(** *** LD B,X *)

Lemma BCD_ok i s :
  0 <= I s -> I s + 2 < SIZE_MEM ->
  exists s', BCD i s = Ok s' /\ s' = set_RAM s (RAM s') /\
    forall k, RAM s' k =
      if k =? I s + 2 then u8 ((v s (VX i) mod 100) mod 10)
      else if k =? I s + 1 then u8 ((v s (VX i) / 10) mod 10)
      else if k =? I s then u8 (v s (VX i) / 100)
      else RAM s k.
Proof.
  intros H1 H2. unfold BCD, set_mem.
  rewrite (proj2 (in_RAM_iff (I s))) by lia. cbn [bind I v RAM set_RAM].
  rewrite (proj2 (in_RAM_iff (I s + 1))) by lia. cbn [bind I v RAM set_RAM].
  rewrite (proj2 (in_RAM_iff (I s + 2))) by lia.
  eexists; split; [reflexivity|]. split; [reflexivity|].
  intros k. reflexivity.
Qed.

Lemma BCD_undef i s :
  ~ (0 <= I s /\ I s + 2 < SIZE_MEM) -> BCD i s = Undefined.
Proof.
  intros H. unfold BCD, set_mem.
  destruct (in_RAM (I s)) eqn:E1; cbn [bind I v RAM set_RAM]; [|reflexivity].
  destruct (in_RAM (I s + 1)) eqn:E2; cbn [bind I v RAM set_RAM]; [|reflexivity].
  destruct (in_RAM (I s + 2)) eqn:E3; [|reflexivity].
  apply in_RAM_iff in E1. apply in_RAM_iff in E3. lia.
Qed.

(** *** DRW *)

Lemma DRW_frame_refl s : DRW_frame s s.
Proof. repeat split. Qed.

Lemma DRW_frame_trans s1 s2 s3 :
  DRW_frame s1 s2 -> DRW_frame s2 s3 -> DRW_frame s1 s3.
Proof.
  intros (A1 & B1 & C1 & D1 & E1 & F1 & G1 & H1 & J1)
         (A2 & B2 & C2 & D2 & E2 & F2 & G2 & H2 & J2).
  repeat split; try congruence.
  intros j Hj. rewrite J2, J1 by exact Hj. reflexivity.
Qed.

Lemma DRW_frame_screen s sc : DRW_frame s (set_screen s sc).
Proof. repeat split. Qed.

Lemma DRW_frame_VF s x : DRW_frame s (set_reg s 0xF x).
Proof. repeat split. intros j Hj. apply upd_neq, Hj. Qed.

(** Pixel [x] of row [y] of a sprite drawn at [(Vx, Vy)] lands on a cell no
    earlier row reaches. *)
Lemma DRW_hit_new_row m Ir Vx Vy n x :
  0 <= x < 8 ->
  DRW_hit m Ir Vx Vy (Z.of_nat n) (x + Vx + (Z.of_nat n + Vy) * WIDTH) = false.
Proof.
  intros Hx. apply not_true_iff_false. intros Ha.
  unfold DRW_hit in Ha. apply existsb_exists in Ha as (y & Hy & Ha).
  apply existsb_exists in Ha as (x' & Hx' & Ha).
  apply in_zseq in Hy. apply in_zseq in Hx'.
  apply andb_true_iff in Ha as [_ Ha]. apply Z.eqb_eq in Ha.
  unfold WIDTH in *. lia.
Qed.

Lemma DRW_hit_S m Ir Vx Vy n k :
  DRW_hit m Ir Vx Vy (Z.of_nat (S n)) k =
  DRW_hit m Ir Vx Vy (Z.of_nat n) k ||
  existsb (fun x => sprite_bit (m (Ir + Z.of_nat n)) x &&
                    (k =? x + Vx + (Z.of_nat n + Vy) * WIDTH)) (zseq 8).
Proof. unfold DRW_hit. rewrite zseq_S, existsb_app_single. reflexivity. Qed.

Lemma DRW_collide_S m Ir Vx Vy n scr :
  DRW_collide m Ir Vx Vy (Z.of_nat (S n)) scr =
  DRW_collide m Ir Vx Vy (Z.of_nat n) scr ||
  existsb (fun x => sprite_bit (m (Ir + Z.of_nat n)) x &&
                    negb (scr (x + Vx + (Z.of_nat n + Vy) * WIDTH) =? 0)) (zseq 8).
Proof. unfold DRW_collide. rewrite zseq_S, existsb_app_single. reflexivity. Qed.

Lemma DRW_defined_S m Ir Vx Vy n :
  DRW_defined m Ir Vx Vy (Z.of_nat (S n)) =
  DRW_defined m Ir Vx Vy (Z.of_nat n) &&
  (in_RAM (Ir + Z.of_nat n) &&
   forallb (fun x => negb (sprite_bit (m (Ir + Z.of_nat n)) x) ||
                     in_screen (x + Vx + (Z.of_nat n + Vy) * WIDTH)) (zseq 8)).
Proof.
  unfold DRW_defined. rewrite zseq_S, forallb_app. cbn [forallb].
  rewrite andb_true_r. reflexivity.
Qed.

(** The pixels of one row, all of whose set bits land inside the
    framebuffer: each toggles its own cell, and VF becomes 1 when one of
    them meets a lit cell. *)
Lemma DRW_pixels_ok Vx Vy p y c s :
  forallb (fun x => negb (sprite_bit p x) || in_screen (x + Vx + (y + Vy) * WIDTH))
    (zseq (Z.of_nat c)) = true ->
  exists s', fold_left (DRW_pixel Vx Vy p y) (zseq (Z.of_nat c)) (Ok s) = Ok s' /\
    DRW_frame s s' /\
    (forall k, screen s' k =
       if existsb (fun x => sprite_bit p x && (k =? x + Vx + (y + Vy) * WIDTH))
            (zseq (Z.of_nat c))
       then Z.lxor (screen s k) 1 else screen s k) /\
    v s' 0xF =
      (if existsb (fun x => sprite_bit p x &&
                            negb (screen s (x + Vx + (y + Vy) * WIDTH) =? 0))
            (zseq (Z.of_nat c))
       then 1 else v s 0xF).
Proof.
  induction c as [|c IH]; intros Hall.
  - exists s. split; [reflexivity|]. split; [apply DRW_frame_refl|].
    split; [intros k|]; reflexivity.
  - rewrite zseq_S, forallb_app in Hall. apply andb_true_iff in Hall as [Hall Hc].
    cbn [forallb] in Hc. rewrite andb_true_r in Hc.
    destruct (IH Hall) as (sn & Hr & Hf & Hsc & Hvf).
    rewrite zseq_S, fold_left_app, !existsb_app_single. cbn [fold_left].
    rewrite Hr. unfold DRW_pixel. cbn [bind]. cbv zeta.
    set (idx := Z.of_nat c + Vx + (y + Vy) * WIDTH) in *.
    assert (Hnot : existsb (fun x => sprite_bit p x && (idx =? x + Vx + (y + Vy) * WIDTH))
                     (zseq (Z.of_nat c)) = false).
    { apply not_true_iff_false. intros Hex.
      apply existsb_exists in Hex as (x & Hx & Hb).
      apply in_zseq in Hx. apply andb_true_iff in Hb as [_ Hb].
      apply Z.eqb_eq in Hb. unfold idx in Hb. lia. }
    assert (Hidx : screen sn idx = screen s idx) by (rewrite Hsc, Hnot; reflexivity).
    assert (Hsb : sprite_bit p (Z.of_nat c) =
                  negb (Z.land p (Z.shiftr 0x80 (Z.of_nat c)) =? 0)) by reflexivity.
    destruct (Z.land p (Z.shiftr 0x80 (Z.of_nat c)) =? 0); cbn [negb] in Hsb.
    + exists sn. split; [reflexivity|]. split; [exact Hf|]. split.
      * intros k. rewrite existsb_app_single. cbv beta. rewrite Hsb. cbn [andb].
        rewrite orb_false_r. apply Hsc.
      * rewrite Hsb. cbn [andb]. rewrite orb_false_r. exact Hvf.
    + rewrite Hsb in Hc. cbn [negb orb] in Hc. rewrite Hc.
      eexists; split; [reflexivity|].
      rewrite Hidx, Hsb. cbn [andb].
      assert (Hscr : forall k,
               upd (screen sn) idx (Z.lxor (screen s idx) 1) k =
                 (if existsb (fun x => sprite_bit p x && (k =? x + Vx + (y + Vy) * WIDTH))
                       (zseq (Z.of_nat c) ++ [Z.of_nat c])
                  then Z.lxor (screen s k) 1 else screen s k)).
      { intros k. rewrite existsb_app_single. cbv beta. rewrite Hsb. cbn [andb].
        change (k =? Z.of_nat c + Vx + (y + Vy) * WIDTH) with (k =? idx).
        unfold upd. destruct (Z.eqb_spec k idx) as [->|Hne].
        - rewrite orb_true_r. reflexivity.
        - rewrite orb_false_r. apply Hsc. }
      destruct (screen s idx =? 0) eqn:Hz; cbn [negb]; rewrite ?orb_false_r, ?orb_true_r.
      * split; [apply (DRW_frame_trans _ sn); [exact Hf | apply DRW_frame_screen]|].
        split; [|exact Hvf].
        intros k. cbn [screen set_screen].
        rewrite Hidx. apply Hscr.
      * split.
        { apply (DRW_frame_trans _ sn); [exact Hf|].
          apply (DRW_frame_trans _ (set_reg sn 0xF 1));
            [apply DRW_frame_VF | apply DRW_frame_screen]. }
        split; [|reflexivity].
        intros k. cbn [screen set_screen set_reg set_v].
        rewrite Hidx. apply Hscr.
Qed.

Lemma DRW_pixels_undef Vx Vy p y c s :
  forallb (fun x => negb (sprite_bit p x) || in_screen (x + Vx + (y + Vy) * WIDTH))
    (zseq (Z.of_nat c)) = false ->
  fold_left (DRW_pixel Vx Vy p y) (zseq (Z.of_nat c)) (Ok s) = Undefined.
Proof.
  induction c as [|c IH]; intros Hall; [discriminate|].
  rewrite zseq_S, forallb_app in Hall. cbn [forallb] in Hall.
  rewrite andb_true_r in Hall.
  rewrite zseq_S, fold_left_app. cbn [fold_left].
  destruct (forallb _ (zseq (Z.of_nat c))) eqn:E; cbn [andb] in Hall.
  - destruct (DRW_pixels_ok Vx Vy p y c s E) as (sn & Hr & _).
    rewrite Hr. unfold DRW_pixel, sprite_bit in *. cbn [bind]. cbv zeta.
    destruct (Z.land p (Z.shiftr 0x80 (Z.of_nat c)) =? 0); [discriminate|].
    cbn [negb orb] in Hall. rewrite Hall. reflexivity.
  - rewrite IH by reflexivity. reflexivity.
Qed.

(** The rows of a sprite all of whose accesses stay inside [RAM] and the
    framebuffer: the cells of the set bits are toggled, and VF becomes 1
    when a set bit meets a cell lit before the draw. *)
Lemma DRW_rows_ok Vx Vy n s :
  DRW_defined (RAM s) (I s) Vx Vy (Z.of_nat n) = true ->
  exists s', fold_left (DRW_row Vx Vy) (zseq (Z.of_nat n)) (Ok s) = Ok s' /\
    DRW_frame s s' /\
    (forall k, screen s' k =
       if DRW_hit (RAM s) (I s) Vx Vy (Z.of_nat n) k
       then Z.lxor (screen s k) 1 else screen s k) /\
    v s' 0xF =
      (if DRW_collide (RAM s) (I s) Vx Vy (Z.of_nat n) (screen s) then 1 else v s 0xF).
Proof.
  induction n as [|n IH]; intros Hdef.
  - exists s. split; [reflexivity|]. split; [apply DRW_frame_refl|].
    split; [intros k|]; reflexivity.
  - rewrite DRW_defined_S in Hdef.
    apply andb_true_iff in Hdef as [Hdef Hrow]. apply andb_true_iff in Hrow as [Hin Hrow].
    destruct (IH Hdef) as (sn & Hr & Hf & Hsc & Hvf).
    rewrite zseq_S, fold_left_app. cbn [fold_left]. rewrite Hr.
    unfold DRW_row. cbn [bind].
    destruct Hf as (HR & HP & HI & Hk & Hsp & Hd & Hs & Hdr & Hv).
    rewrite HI, HR, Hin.
    change (zseq 8) with (zseq (Z.of_nat 8)) in Hrow |- *.
    destruct (DRW_pixels_ok Vx Vy (RAM s (I s + Z.of_nat n)) (Z.of_nat n) 8 sn Hrow)
      as (s' & Hr' & Hf' & Hsc' & Hvf').
    exists s'. split; [exact Hr'|]. split; [|split].
    + apply (DRW_frame_trans _ sn); [repeat split; assumption | exact Hf'].
    + intros k. rewrite Hsc', Hsc, DRW_hit_S. change (Z.of_nat 8) with 8.
      destruct (existsb _ (zseq 8)) eqn:Erow; rewrite ?orb_true_r, ?orb_false_r.
      * apply existsb_exists in Erow as (x & Hx & Hb).
        apply in_zseq in Hx. apply andb_true_iff in Hb as [_ Hb]. apply Z.eqb_eq in Hb.
        subst k. rewrite DRW_hit_new_row by exact Hx. reflexivity.
      * reflexivity.
    + rewrite Hvf', Hvf, DRW_collide_S. change (Z.of_nat 8) with 8.
      rewrite (existsb_ext_in _
        (fun x => sprite_bit (RAM s (I s + Z.of_nat n)) x &&
                  negb (screen s (x + Vx + (Z.of_nat n + Vy) * WIDTH) =? 0))).
      * destruct (DRW_collide _ _ _ _ _ _), (existsb _ (zseq 8)); reflexivity.
      * intros x Hx. apply in_zseq in Hx.
        rewrite Hsc, DRW_hit_new_row by exact Hx. reflexivity.
Qed.

Lemma DRW_rows_undef Vx Vy n s :
  DRW_defined (RAM s) (I s) Vx Vy (Z.of_nat n) = false ->
  fold_left (DRW_row Vx Vy) (zseq (Z.of_nat n)) (Ok s) = Undefined.
Proof.
  induction n as [|n IH]; intros Hdef; [discriminate|].
  rewrite DRW_defined_S in Hdef.
  rewrite zseq_S, fold_left_app. cbn [fold_left].
  destruct (DRW_defined _ _ _ _ (Z.of_nat n)) eqn:E; cbn [andb] in Hdef.
  - destruct (DRW_rows_ok Vx Vy n s E) as (sn & Hr & Hf & _).
    destruct Hf as (HR & _ & HI & _).
    rewrite Hr. unfold DRW_row. cbn [bind]. rewrite HI, HR.
    destruct (in_RAM (I s + Z.of_nat n)); cbn [andb] in Hdef; [|reflexivity].
    change (zseq 8) with (zseq (Z.of_nat 8)) in Hdef |- *.
    apply DRW_pixels_undef, Hdef.
  - rewrite IH by reflexivity. reflexivity.
Qed.

(** [DRW] whose accesses all stay inside [RAM] and the framebuffer. *)
Lemma DRW_ok i s :
  DRW_defined (RAM s) (I s) (v s (VX i)) (v s (VY i)) (LSN i) = true ->
  exists s', DRW i s = Ok s' /\ DRW_frame s s' /\
    (forall k, screen s' k =
       if DRW_hit (RAM s) (I s) (v s (VX i)) (v s (VY i)) (LSN i) k
       then Z.lxor (screen s k) 1 else screen s k) /\
    v s' 0xF =
      (if DRW_collide (RAM s) (I s) (v s (VX i)) (v s (VY i)) (LSN i) (screen s)
       then 1 else 0).
Proof.
  intros Hdef. pose proof (LSN_nonneg i) as Hn. unfold DRW.
  destruct (DRW_rows_ok (v s (VX i)) (v s (VY i)) (Z.to_nat (LSN i))
              (set_reg s 0xF 0)) as (s' & Hr & Hf & Hsc & Hvf);
    rewrite Z2Nat.id in * by exact Hn; [exact Hdef|].
  exists s'. split; [exact Hr|]. split; [|split].
  - exact (DRW_frame_trans _ _ _ (DRW_frame_VF s 0) Hf).
  - exact Hsc.
  - rewrite Hvf. reflexivity.
Qed.

Lemma DRW_undef i s :
  DRW_defined (RAM s) (I s) (v s (VX i)) (v s (VY i)) (LSN i) = false ->
  DRW i s = Undefined.
Proof.
  intros Hdef. pose proof (LSN_nonneg i) as Hn. unfold DRW.
  rewrite zseq_to_nat. apply DRW_rows_undef.
  rewrite Z2Nat.id by exact Hn. exact Hdef.
Qed.

(** The accesses of DRW stay inside [RAM] and the framebuffer exactly when
    the sprite rows lie in RAM and every set bit lands on one of the 2048
    cells. *)
Lemma DRW_defined_iff m Ir Vx Vy n :
  DRW_defined m Ir Vx Vy n = true <->
  (forall y, 0 <= y < n -> 0 <= Ir + y < SIZE_MEM) /\
  (forall k, DRW_hit m Ir Vx Vy n k = true -> 0 <= k < WIDTH * HEIGHT).
Proof.
  unfold DRW_defined, DRW_hit. rewrite forallb_forall. split.
  - intros H. split.
    + intros y Hy. apply in_zseq, H in Hy. apply andb_true_iff in Hy as [Hy _].
      apply in_RAM_iff, Hy.
    + intros k Hk. apply existsb_exists in Hk as (y & Hy & Hk).
      apply existsb_exists in Hk as (x & Hx & Hk).
      apply andb_true_iff in Hk as [Hb Hk]. apply Z.eqb_eq in Hk. subst k.
      apply H in Hy. apply andb_true_iff in Hy as [_ Hy].
      rewrite forallb_forall in Hy. apply Hy in Hx.
      rewrite Hb in Hx. apply in_screen_iff, Hx.
  - intros [H1 H2] y Hy. apply andb_true_iff. split.
    + apply in_RAM_iff, H1, in_zseq, Hy.
    + apply forallb_forall. intros x Hx.
      destruct (sprite_bit (m (Ir + y)) x) eqn:Hb; [|reflexivity].
      apply in_screen_iff, H2, existsb_exists. exists y. split; [exact Hy|].
      apply existsb_exists. exists x. split; [exact Hx|].
      rewrite Hb. apply Z.eqb_refl.
Qed.

(** What a completed DRW did. *)
Lemma DRW_Ok_inv i s s' :
  DRW i s = Ok s' ->
  DRW_defined (RAM s) (I s) (v s (VX i)) (v s (VY i)) (LSN i) = true /\
  DRW_frame s s' /\
  (forall k, screen s' k =
     if DRW_hit (RAM s) (I s) (v s (VX i)) (v s (VY i)) (LSN i) k
     then Z.lxor (screen s k) 1 else screen s k) /\
  v s' 0xF =
    (if DRW_collide (RAM s) (I s) (v s (VX i)) (v s (VY i)) (LSN i) (screen s)
     then 1 else 0).
Proof.
  intros H. destruct (DRW_defined (RAM s) (I s) (v s (VX i)) (v s (VY i)) (LSN i)) eqn:E.
  - destruct (DRW_ok i s E) as (s'' & H' & Hr). rewrite H' in H.
    injection H as <-. auto.
  - rewrite DRW_undef in H by exact E. discriminate.
Qed.

Lemma STA_Ok_inv i s s' :
  STA i s = Ok s' ->
  0 <= I s /\ I s + VX i < SIZE_MEM /\ s' = set_RAM s (RAM s') /\
  forall k, RAM s' k =
    if (I s <=? k) && (k <=? I s + VX i) then u8 (v s (k - I s)) else RAM s k.
Proof.
  intros H. destruct (Z_le_dec 0 (I s)), (Z_lt_dec (I s + VX i) SIZE_MEM).
  2-4: rewrite STA_undef in H by lia; discriminate.
  destruct (STA_ok i s) as (s'' & H' & Hr); try assumption.
  rewrite H' in H. injection H as <-. auto.
Qed.

Lemma LDA_Ok_inv i s s' :
  LDA i s = Ok s' ->
  0 <= I s /\ I s + VX i < SIZE_MEM /\ s' = set_v s (v s') /\
  forall j, v s' j =
    if (0 <=? j) && (j <=? VX i) then u8 (RAM s (I s + j)) else v s j.
Proof.
  intros H. destruct (Z_le_dec 0 (I s)), (Z_lt_dec (I s + VX i) SIZE_MEM).
  2-4: rewrite LDA_undef in H by lia; discriminate.
  destruct (LDA_ok i s) as (s'' & H' & Hr); try assumption.
  rewrite H' in H. injection H as <-. auto.
Qed.

Lemma BCD_Ok_inv i s s' :
  BCD i s = Ok s' ->
  0 <= I s /\ I s + 2 < SIZE_MEM /\ s' = set_RAM s (RAM s') /\
  forall k, RAM s' k =
    if k =? I s + 2 then u8 ((v s (VX i) mod 100) mod 10)
    else if k =? I s + 1 then u8 ((v s (VX i) / 10) mod 10)
    else if k =? I s then u8 (v s (VX i) / 100)
    else RAM s k.
Proof.
  intros H. destruct (Z_le_dec 0 (I s)), (Z_lt_dec (I s + 2) SIZE_MEM).
  2-4: rewrite BCD_undef in H by lia; discriminate.
  destruct (BCD_ok i s) as (s'' & H' & Hr); try assumption.
  rewrite H' in H. injection H as <-. auto.
Qed.

(** None of the four ends in [exit]. *)
Lemma array_ops_no_exit i s e :
  BCD i s <> Exit e /\ STA i s <> Exit e /\ LDA i s <> Exit e /\ DRW i s <> Exit e.
Proof.
  refine (conj _ (conj _ (conj _ _))).
  - destruct (Z_le_dec 0 (I s)), (Z_lt_dec (I s + 2) SIZE_MEM).
    1: destruct (BCD_ok i s) as (s' & -> & _); try assumption; discriminate.
    all: rewrite BCD_undef by lia; discriminate.
  - destruct (Z_le_dec 0 (I s)), (Z_lt_dec (I s + VX i) SIZE_MEM).
    1: destruct (STA_ok i s) as (s' & -> & _); try assumption; discriminate.
    all: rewrite STA_undef by lia; discriminate.
  - destruct (Z_le_dec 0 (I s)), (Z_lt_dec (I s + VX i) SIZE_MEM).
    1: destruct (LDA_ok i s) as (s' & -> & _); try assumption; discriminate.
    all: rewrite LDA_undef by lia; discriminate.
  - destruct (DRW_defined (RAM s) (I s) (v s (VX i)) (v s (VY i)) (LSN i)) eqn:E.
    + destruct (DRW_ok i s E) as (s' & -> & _). discriminate.
    + rewrite DRW_undef by exact E. discriminate.
Qed.

(** The steps that run the four. *)
Lemma step_F ram_base rnd s :
  MSN (instr_at s) = 0xF ->
  (BYTE (instr_at s) = 0x33 ->
     step ram_base rnd s = BCD (instr_at s) (set_PC s (u16 (PC s + 2)))) /\
  (BYTE (instr_at s) = 0x55 ->
     step ram_base rnd s = STA (instr_at s) (set_PC s (u16 (PC s + 2)))) /\
  (BYTE (instr_at s) = 0x65 ->
     step ram_base rnd s = LDA (instr_at s) (set_PC s (u16 (PC s + 2)))).
Proof.
  intros Hm. rewrite step_unfold.
  set (i := instr_at s) in *; clearbody i.
  split; [|split]; intros Hb; decode Hm; rewrite Hb; decide_tests; reflexivity.
Qed.

Lemma step_D ram_base rnd s :
  MSN (instr_at s) = 0xD ->
  step ram_base rnd s =
    let! s1 := DRW (instr_at s) (set_PC s (u16 (PC s + 2))) in Ok (set_draw s1 1).
Proof.
  intros Hm. rewrite step_unfold.
  set (i := instr_at s) in *; clearbody i.
  decode Hm. reflexivity.
Qed.

(** C10, amended: LD [I],X (Fx55) and LD X,[I] (Fx65) never change I.  The
    step completes, with I unchanged, exactly when the addresses I..I+X lie
    inside the 4096-byte RAM; otherwise the code indexes RAM outside the
    array, which C leaves undefined. *)
Theorem STA_LDA_keep_I ram_base rnd s :
  MSN (instr_at s) = 0xF -> (BYTE (instr_at s) = 0x55 \/ BYTE (instr_at s) = 0x65) ->
  (forall s', step ram_base rnd s = Ok s' -> I s' = I s) /\
  ((exists s', step ram_base rnd s = Ok s') <->
   0 <= I s /\ I s + VX (instr_at s) < SIZE_MEM) /\
  (~ (0 <= I s /\ I s + VX (instr_at s) < SIZE_MEM) -> step ram_base rnd s = Undefined).
Proof.
  intros Hm Hb. destruct (step_F ram_base rnd s Hm) as (_ & Hsta & Hlda).
  assert (Hstep : (exists s', step ram_base rnd s = Ok s' /\ I s' = I s /\
                     0 <= I s /\ I s + VX (instr_at s) < SIZE_MEM) \/
                  (step ram_base rnd s = Undefined /\
                     ~ (0 <= I s /\ I s + VX (instr_at s) < SIZE_MEM))).
  { destruct (Z_le_dec 0 (I s)), (Z_lt_dec (I s + VX (instr_at s)) SIZE_MEM).
    2-4: right; split; [|lia]; destruct Hb as [Hb|Hb];
         [rewrite (Hsta Hb) | rewrite (Hlda Hb)];
         [apply STA_undef | apply LDA_undef]; cbn [I set_PC]; lia.
    left. destruct Hb as [Hb|Hb].
    - destruct (STA_ok (instr_at s) (set_PC s (u16 (PC s + 2)))) as (s' & Hs & Heq & _);
        try assumption.
      exists s'. rewrite (Hsta Hb), Hs. split; [reflexivity|]. split; [|lia].
      rewrite Heq. reflexivity.
    - destruct (LDA_ok (instr_at s) (set_PC s (u16 (PC s + 2)))) as (s' & Hs & Heq & _);
        try assumption.
      exists s'. rewrite (Hlda Hb), Hs. split; [reflexivity|]. split; [|lia].
      rewrite Heq. reflexivity. }
  destruct Hstep as [(s1 & Hs1 & HI & Hr) | (Hs1 & Hr)]; rewrite Hs1.
  - split; [intros s' H; injection H as <-; exact HI|].
    split; [split; [intros _; exact Hr | intros _; eauto] | intros Hn; contradiction].
  - split; [intros s' H; discriminate|].
    split; [split; [intros (s' & H); discriminate | intros H; contradiction] | reflexivity].
Qed.

(** A machine running F355 (LD [I],V3) at address 0, with I = 0x300. *)
Definition sta_state : state :=
  set_I (set_RAM zero_state (upd (upd (fun _ => 0) 0 0xF3) 1 0x55)) 0x300.

Lemma STA_LDA_keep_I_witness :
  MSN (instr_at sta_state) = 0xF /\
  (BYTE (instr_at sta_state) = 0x55 \/ BYTE (instr_at sta_state) = 0x65) /\
  (forall s', step 0x404060 0 sta_state = Ok s' -> I s' = I sta_state) /\
  ((exists s', step 0x404060 0 sta_state = Ok s') <->
   0 <= I sta_state /\ I sta_state + VX (instr_at sta_state) < SIZE_MEM) /\
  (~ (0 <= I sta_state /\ I sta_state + VX (instr_at sta_state) < SIZE_MEM) ->
   step 0x404060 0 sta_state = Undefined).
Proof.
  assert (H1 : MSN (instr_at sta_state) = 0xF) by reflexivity.
  assert (H2 : BYTE (instr_at sta_state) = 0x55 \/ BYTE (instr_at sta_state) = 0x65)
    by (left; reflexivity).
  split; [exact H1|]. split; [exact H2|].
  exact (STA_LDA_keep_I 0x404060 0 sta_state H1 H2).
Defined.

(** A program that sets I = 0xFFF and executes LD [I],V1, which stores V0 at
    RAM[0xFFF] and V1 at RAM[0x1000]. *)
Definition sta_end_rom : list Z := [0xAF; 0xFF; 0xF1; 0x55].
Definition sta_end_s0 : state := ok_or (boot zero_state sta_end_rom) zero_state.

(** C10 is false as stated: with I = 0xFFF, LD [I],V1 stores V1 one byte
    past the end of RAM.  The step has no defined outcome, so nothing keeps
    I unchanged; InstructionSet.h declares PC and I right after RAM, and
    where they are laid out there the store lands on them. *)
Lemma STA_past_RAM_undefined :
  exists s, run_steps 0x404060 (fun _ => 0) 1 sta_end_s0 = Ok s /\
    I s = 0xFFF /\ instr_at s = 0xF155 /\
    step 0x404060 0 s = Undefined.
Proof. eexists. split; [vm_compute; reflexivity | repeat split; vm_compute; reflexivity]. Qed.

(** ** ADD X,Y *)

(** With neither operand VF, ADD computes the wrapped sum and the carry. *)
Lemma ADD_no_VF i s :
  VX i <> 0xF -> VY i <> 0xF ->
  v (ADD i s) (VX i) = u8 (v s (VX i) + v s (VY i)) /\
  v (ADD i s) 0xF = (if v s (VX i) >? 0xFF - v s (VY i) then 1 else 0).
Proof.
  intros Hx Hy. unfold ADD, set_reg, set_v. simpl.
  rewrite upd_eq, !upd_neq by assumption. split; [reflexivity|].
  rewrite upd_neq by lia. rewrite upd_eq. unfold u8.
  destruct (_ >? _); reflexivity.
Qed.

(** C4 (failing input): ADD V0,VF (0x80F4) with V0 = 1, VF = 5 leaves V0 = 1
    and VF = 0, where the claim expects V0 = 6 and VF = 0; ADD VF,V1 (0x8F14)
    with VF = 1, V1 = 1 leaves VF = 1, where the claim expects the carry 0. *)
Theorem ADD_VF_operand_divergence :
  let s := set_v zero_state (upd (upd (fun _ => 0) 0 1) 0xF 5) in
  let s' := set_v zero_state (upd (upd (fun _ => 0) 0xF 1) 1 1) in
  execute 0x404060 0 0x80F4 s = Ok (ADD 0x80F4 s) /\
  v (ADD 0x80F4 s) 0 = 1 /\ v (ADD 0x80F4 s) 0xF = 0 /\
  execute 0x404060 0 0x8F14 s' = Ok (ADD 0x8F14 s') /\
  v (ADD 0x8F14 s') 0xF = 1.
Proof. repeat split; reflexivity. Qed.

(** ** CALL and RET *)

Lemma CALL_step ram_base rnd s :
  MSN (instr_at s) = 0x2 ->
  step ram_base rnd s = CALL ram_base (instr_at s) (set_PC s (u16 (PC s + 2))).
Proof.
  intros Hm. rewrite step_unfold.
  set (i := instr_at s) in *; clearbody i.
  decode Hm. reflexivity.
Qed.

Lemma RET_step ram_base rnd s :
  instr_at s = 0x00EE ->
  step ram_base rnd s = RET ram_base (set_PC s (u16 (PC s + 2))).
Proof. intros Hi. rewrite step_unfold, Hi. reflexivity. Qed.

Lemma u16_sub_add x : u16 (u16 (x + 2) - 2) = u16 x.
Proof.
  unfold u16. rewrite Zminus_mod_idemp_l. f_equal. lia.
Qed.

(** What a successful CALL step did to the machine. *)
Lemma CALL_step_ok ram_base rnd s s1 :
  MSN (instr_at s) = 0x2 -> step ram_base rnd s = Ok s1 ->
  sp s1 = sp s - 2 /\
  RAM s1 = store16 (RAM s) (sp s) (u16 (PC s)) /\
  PC s1 = ADDR (instr_at s).
Proof.
  intros Hm Hs. rewrite CALL_step in Hs by exact Hm.
  unfold CALL, push in Hs. simpl in Hs.
  destruct (ram_base + sp s <? STACK_UP); inversion Hs; subst; clear Hs.
  simpl. rewrite u16_sub_add. auto.
Qed.

(** What a successful RET step did to the machine. *)
Lemma RET_step_ok ram_base rnd s s1 :
  instr_at s = 0x00EE -> step ram_base rnd s = Ok s1 ->
  sp s1 = sp s + 2 /\ RAM s1 = RAM s /\ PC s1 = u16 (load16 (RAM s) (sp s + 2) + 2).
Proof.
  intros Hi Hs. rewrite RET_step in Hs by exact Hi.
  unfold RET, pop in Hs. simpl in Hs.
  destruct (ram_base + sp s =? STACK_LOW); inversion Hs; subst; clear Hs.
  simpl. auto.
Qed.

(** C6: a CALL immediately followed by RET (both steps succeeding) leaves PC
    at the address of the instruction after the CALL. *)
Theorem CALL_then_RET_resumes_after_CALL ram_base r1 r2 s s1 s2 :
  MSN (instr_at s) = 0x2 -> step ram_base r1 s = Ok s1 ->
  instr_at s1 = 0x00EE -> step ram_base r2 s1 = Ok s2 ->
  PC s2 = u16 (PC s + 2).
Proof.
  intros Hm Hs1 Hi Hs2.
  destruct (CALL_step_ok _ _ _ _ Hm Hs1) as (Hsp & Hram & _).
  destruct (RET_step_ok _ _ _ _ Hi Hs2) as (_ & _ & Hpc).
  rewrite Hpc, Hram, Hsp.
  replace (sp s - 2 + 2) with (sp s) by lia.
  rewrite load16_store16 by apply u16_range.
  unfold u16. rewrite Z.add_mod_idemp_l by lia. reflexivity.
Qed.

(** A program that calls the subroutine at 0x204, which returns at once. *)
Definition call_ret_rom : list Z := [0x22; 0x04; 0x00; 0x00; 0x00; 0xEE].
Definition call_ret_s0 : state := ok_or (boot zero_state call_ret_rom) zero_state.
Definition call_ret_s1 : state := ok_or (step 0x404060 0 call_ret_s0) zero_state.
Definition call_ret_s2 : state := ok_or (step 0x404060 0 call_ret_s1) zero_state.

Lemma CALL_then_RET_resumes_after_CALL_witness :
  MSN (instr_at call_ret_s0) = 0x2 /\
  step 0x404060 0 call_ret_s0 = Ok call_ret_s1 /\
  instr_at call_ret_s1 = 0x00EE /\
  step 0x404060 0 call_ret_s1 = Ok call_ret_s2 /\
  PC call_ret_s2 = u16 (PC call_ret_s0 + 2).
Proof.
  assert (H1 : MSN (instr_at call_ret_s0) = 0x2) by (vm_compute; reflexivity).
  assert (H2 : step 0x404060 0 call_ret_s0 = Ok call_ret_s1) by (vm_compute; reflexivity).
  assert (H3 : instr_at call_ret_s1 = 0x00EE) by (vm_compute; reflexivity).
  assert (H4 : step 0x404060 0 call_ret_s1 = Ok call_ret_s2) by (vm_compute; reflexivity).
  split; [exact H1|]. split; [exact H2|]. split; [exact H3|]. split; [exact H4|].
  exact (CALL_then_RET_resumes_after_CALL 0x404060 0 0 _ _ _ H1 H2 H3 H4).
Defined.

(** C5, amended: CALL pushes the address of the CALL instruction itself
    ([PC - 2] once [fetch] has advanced [PC]) and jumps to N; RET sets [PC]
    to the popped address plus 2. *)
Theorem CALL_RET_return_addresses ram_base :
  (forall rnd s s1, MSN (instr_at s) = 0x2 -> step ram_base rnd s = Ok s1 ->
     load16 (RAM s1) (sp s1 + 2) = u16 (PC s) /\ PC s1 = ADDR (instr_at s)) /\
  (forall rnd s s1, instr_at s = 0x00EE -> step ram_base rnd s = Ok s1 ->
     PC s1 = u16 (load16 (RAM s) (sp s + 2) + 2)).
Proof.
  split.
  - intros rnd s s1 Hm Hs.
    destruct (CALL_step_ok _ _ _ _ Hm Hs) as (Hsp & Hram & Hpc).
    rewrite Hram, Hsp, Hpc. replace (sp s - 2 + 2) with (sp s) by lia.
    rewrite load16_store16 by apply u16_range. auto.
  - intros rnd s s1 Hi Hs.
    exact (proj2 (proj2 (RET_step_ok _ _ _ _ Hi Hs))).
Qed.

Lemma CALL_RET_return_addresses_witness :
  (MSN (instr_at call_ret_s0) = 0x2 /\
   step 0x404060 0 call_ret_s0 = Ok call_ret_s1 /\
   load16 (RAM call_ret_s1) (sp call_ret_s1 + 2) = u16 (PC call_ret_s0)) /\
  (instr_at call_ret_s1 = 0x00EE /\
   step 0x404060 0 call_ret_s1 = Ok call_ret_s2 /\
   PC call_ret_s2 = u16 (load16 (RAM call_ret_s1) (sp call_ret_s1 + 2) + 2)).
Proof.
  assert (H1 : MSN (instr_at call_ret_s0) = 0x2) by (vm_compute; reflexivity).
  assert (H2 : step 0x404060 0 call_ret_s0 = Ok call_ret_s1) by (vm_compute; reflexivity).
  assert (H3 : instr_at call_ret_s1 = 0x00EE) by (vm_compute; reflexivity).
  assert (H4 : step 0x404060 0 call_ret_s1 = Ok call_ret_s2) by (vm_compute; reflexivity).
  destruct (CALL_RET_return_addresses 0x404060) as [Hc Hr].
  split; (split; [assumption | split; [assumption|]]).
  - exact (proj1 (Hc 0 _ _ H1 H2)).
  - exact (Hr 0 _ _ H3 H4).
Defined.

(** C5 is false as stated: the CALL at 0x200 pushes 0x200, not the address
    0x202 of the instruction to resume at; RET then adds 2 to what it pops. *)
Lemma CALL_pushes_its_own_address :
  PC call_ret_s0 = 0x200 /\
  step 0x404060 0 call_ret_s0 = Ok call_ret_s1 /\
  load16 (RAM call_ret_s1) (sp call_ret_s1 + 2) = 0x200 /\
  load16 (RAM call_ret_s1) (sp call_ret_s1 + 2) <> PC call_ret_s0 + 2 /\
  PC call_ret_s2 = load16 (RAM call_ret_s1) (sp call_ret_s1 + 2) + 2.
Proof. vm_compute. repeat split; try reflexivity; discriminate. Qed.

(** ** Waiting for a key (LDK) *)

Lemma find_none {A} (f : A -> bool) l :
  (forall x, In x l -> f x = false) -> find f l = None.
Proof.
  induction l as [|a l IH]; intros H; simpl; [reflexivity|].
  rewrite H by (left; reflexivity). apply IH. intros x Hx. apply H. right; exact Hx.
Qed.

Lemma find_seq_lowest (f : Z -> bool) n a x :
  Z.of_nat a <= x < Z.of_nat (a + n) -> f x = true ->
  (forall j, Z.of_nat a <= j < x -> f j = false) ->
  find f (map Z.of_nat (seq a n)) = Some x.
Proof.
  revert a; induction n as [|n IH]; intros a Hx Hf Hlow; [lia|].
  simpl. destruct (f (Z.of_nat a)) eqn:Ha.
  - destruct (Z.eq_dec (Z.of_nat a) x) as [->|Hne]; [reflexivity|].
    rewrite Hlow in Ha by lia. discriminate.
  - assert (Z.of_nat a <> x) by (intros <-; congruence).
    apply IH; [lia | exact Hf |]. intros j Hj. apply Hlow. lia.
Qed.

Lemma first_key_none k :
  (forall j, 0 <= j < 16 -> k j = 0) -> first_key k = None.
Proof.
  intros H. apply find_none. intros x Hx. apply in_zseq in Hx.
  rewrite H by exact Hx. reflexivity.
Qed.

Lemma first_key_lowest k x :
  0 <= x < 16 -> k x <> 0 -> (forall j, 0 <= j < x -> k j = 0) ->
  first_key k = Some x.
Proof.
  intros Hx Hk Hlow. apply (find_seq_lowest _ 16 0 x); [simpl; lia | |].
  - apply negb_true_iff, Z.eqb_neq, Hk.
  - intros j Hj. rewrite Hlow by lia. reflexivity.
Qed.

Lemma LDK_step ram_base rnd s :
  MSN (instr_at s) = 0xF -> BYTE (instr_at s) = 0x0A ->
  step ram_base rnd s = Ok (LDK (instr_at s) (set_PC s (u16 (PC s + 2)))).
Proof.
  intros Hm Hb. rewrite step_unfold.
  set (i := instr_at s) in *; clearbody i.
  decode Hm. rewrite Hb. decide_tests. reflexivity.
Qed.

(** C7: while no key is pressed, stepping on Fx0A leaves the whole machine,
    and so PC, unchanged however many steps are taken; when key [k] is the
    (lowest-numbered) pressed key, one step stores [k] in VX and moves PC past
    the instruction, so that the next step fetches the following one. *)
Theorem LDK_waits_then_stores ram_base s :
  0 <= PC s < 65536 -> MSN (instr_at s) = 0xF -> BYTE (instr_at s) = 0x0A ->
  ((forall j, 0 <= j < 16 -> keys s j = 0) ->
     forall rnds n, run_steps ram_base rnds n s = Ok s) /\
  (forall k, 0 <= k < 16 -> keys s k <> 0 -> (forall j, 0 <= j < k -> keys s j = 0) ->
     forall rnd, exists s', step ram_base rnd s = Ok s' /\
       v s' (VX (instr_at s)) = k /\ PC s' = u16 (PC s + 2)).
Proof.
  intros Hpc Hm Hb. split.
  - intros Hnone rnds n.
    assert (Hstep : forall rnd, step ram_base rnd s = Ok s).
    { intros rnd. rewrite (LDK_step _ _ _ Hm Hb). unfold LDK. simpl.
      rewrite first_key_none by exact Hnone.
      rewrite set_PC_twice. simpl. rewrite u16_sub_add, u16_small by exact Hpc.
      rewrite set_PC_PC. reflexivity. }
    induction n as [|n IH]; simpl; [reflexivity|].
    rewrite Hstep. exact IH.
  - intros k Hk Hpress Hlow rnd.
    rewrite (LDK_step _ _ _ Hm Hb). unfold LDK. simpl.
    rewrite (first_key_lowest _ k Hk Hpress Hlow).
    eexists; split; [reflexivity|]. simpl. split; [|reflexivity].
    rewrite upd_eq. unfold u8. apply Z.mod_small. lia.
Qed.

(** A machine waiting on F30A at address 0 with key [kstate] state. *)
Definition ldk_state (kstate : Z -> Z) : state :=
  set_keys (set_RAM zero_state (upd (upd (fun _ => 0) 0 0xF3) 1 0x0A)) kstate.

Lemma LDK_waits_then_stores_witness :
  0 <= PC (ldk_state (fun _ => 0)) < 65536 /\
  MSN (instr_at (ldk_state (fun _ => 0))) = 0xF /\
  BYTE (instr_at (ldk_state (fun _ => 0))) = 0x0A /\
  (forall rnds n, run_steps 0 rnds n (ldk_state (fun _ => 0)) = Ok (ldk_state (fun _ => 0))) /\
  (0 <= PC (ldk_state (upd (fun _ => 0) 5 1)) < 65536 /\
   exists s', step 0 0 (ldk_state (upd (fun _ => 0) 5 1)) = Ok s' /\ v s' 3 = 5).
Proof.
  assert (Hpc : forall kst, 0 <= PC (ldk_state kst) < 65536) by (intros; simpl; lia).
  assert (Hm : forall kst, MSN (instr_at (ldk_state kst)) = 0xF) by reflexivity.
  assert (Hb : forall kst, BYTE (instr_at (ldk_state kst)) = 0x0A) by reflexivity.
  split; [apply Hpc|]. split; [apply Hm|]. split; [apply Hb|]. split.
  - apply (proj1 (LDK_waits_then_stores 0 _ (Hpc (fun _ => 0)) (Hm _) (Hb _))).
    intros j _. reflexivity.
  - split; [apply Hpc|].
    destruct (proj2 (LDK_waits_then_stores 0 _
                       (Hpc (upd (fun _ => 0) 5 1)) (Hm _) (Hb _)) 5
                ltac:(lia) ltac:(vm_compute; discriminate)
                ltac:(intros j Hj; unfold ldk_state, upd; simpl;
                      destruct (Z.eqb_spec j 5); [lia | reflexivity]) 0)
      as (s' & Hs & Hv & _).
    exists s'. split; [exact Hs | exact Hv].
Defined.

(** ** Glyph lookup (LDF) *)

Lemma LDF_step ram_base rnd s :
  MSN (instr_at s) = 0xF -> BYTE (instr_at s) = 0x29 ->
  step ram_base rnd s = Ok (LDF (instr_at s) (set_PC s (u16 (PC s + 2)))).
Proof.
  intros Hm Hb. rewrite step_unfold.
  set (i := instr_at s) in *; clearbody i.
  decode Hm. rewrite Hb. decide_tests. reflexivity.
Qed.

(** C8, amended: LD F,X never fails; for every byte value of VX it sets
    I = 5 * VX, which is the base of VX's glyph when VX <= 15 (the font is
    copied to address 0) and an address past the font otherwise. *)
Theorem LDF_sets_I_for_every_value ram_base rnd s :
  MSN (instr_at s) = 0xF -> BYTE (instr_at s) = 0x29 ->
  0 <= v s (VX (instr_at s)) < 256 ->
  exists s', step ram_base rnd s = Ok s' /\ I s' = 5 * v s (VX (instr_at s)).
Proof.
  intros Hm Hb Hv. rewrite (LDF_step _ _ _ Hm Hb).
  eexists; split; [reflexivity|]. unfold LDF, set_I. cbn [I v set_PC].
  rewrite u16_small by lia. lia.
Qed.

(** A program that loads V0 with 16 and executes LD F,V0. *)
Definition ldf_rom : list Z := [0x60; 0x10; 0xF0; 0x29].
Definition ldf_s0 : state := ok_or (boot zero_state ldf_rom) zero_state.
Definition ldf_s1 : state := ok_or (step 0x404060 0 ldf_s0) zero_state.

Lemma LDF_sets_I_for_every_value_witness :
  MSN (instr_at ldf_s1) = 0xF /\ BYTE (instr_at ldf_s1) = 0x29 /\
  0 <= v ldf_s1 (VX (instr_at ldf_s1)) < 256 /\
  exists s', step 0x404060 0 ldf_s1 = Ok s' /\ I s' = 5 * v ldf_s1 (VX (instr_at ldf_s1)).
Proof.
  assert (H1 : MSN (instr_at ldf_s1) = 0xF) by (vm_compute; reflexivity).
  assert (H2 : BYTE (instr_at ldf_s1) = 0x29) by (vm_compute; reflexivity).
  assert (H3 : 0 <= v ldf_s1 (VX (instr_at ldf_s1)) < 256).
  { assert (Hv : v ldf_s1 (VX (instr_at ldf_s1)) = 16) by (vm_compute; reflexivity).
    rewrite Hv. lia. }
  split; [exact H1|]. split; [exact H2|]. split; [exact H3|].
  exact (LDF_sets_I_for_every_value 0x404060 0 _ H1 H2 H3).
Defined.

(** C8 is false as stated: with V0 = 16, LD F,V0 does not fail; it sets
    I = 80, the first byte after the font. *)
Lemma LDF_out_of_range_digit_accepted :
  exists s, run_steps 0x404060 (fun _ => 0) 2 ldf_s0 = Ok s /\ v s 0 = 16 /\ I s = 80.
Proof. eexists. split; [vm_compute; reflexivity | split; reflexivity]. Qed.

(** ** The call stack *)

Lemma push_all_cons ram_base a l s :
  push_all ram_base (a :: l) s =
  match push ram_base a s with
  | Ok s1 => push_all ram_base l s1
  | Exit e => fold_left (fun r a => let! s := r in push ram_base a s) l (Exit e)
  | Undefined => fold_left (fun r a => let! s := r in push ram_base a s) l Undefined
  end.
Proof. unfold push_all. simpl. destruct (push ram_base a s); reflexivity. Qed.

(** Pushes succeed as long as the guard, which compares the absolute
    address [ram_base + sp] with [STACK_UP], lets each one through. *)
Lemma push_all_ok ram_base addrs s :
  STACK_UP <= ram_base + sp s - 2 * Z.of_nat (length addrs) + 2 ->
  exists s', push_all ram_base addrs s = Ok s' /\
    sp s' = sp s - 2 * Z.of_nat (length addrs).
Proof.
  unfold STACK_UP. revert s; induction addrs as [|a l IH]; intros s Hg.
  - exists s. simpl. split; [reflexivity | lia].
  - rewrite push_all_cons. unfold push at 1.
    replace (ram_base + sp s <? STACK_UP) with false
      by (symmetry; apply Z.ltb_ge; unfold STACK_UP; simpl length in Hg; lia).
    destruct (IH (set_sp (set_RAM s (store16 (RAM s) (sp s) (u16 a))) (sp s - 2)))
      as (s' & Hs' & Hsp); [simpl length in Hg; cbn [sp set_sp]; lia|].
    exists s'. split; [exact Hs'|]. cbn [sp set_sp] in Hsp. simpl length. lia.
Qed.

(** With [RAM] at absolute address 0, the address the guard takes for
    [&RAM[0]], the 17th push would be refused. *)
Lemma push_guard_with_RAM_at_zero s0 addrs a :
  length addrs = 16%nat ->
  exists s16, push_all 0 addrs (initialize s0) = Ok s16 /\
    push 0 a s16 = Exit Stack_overflow.
Proof.
  intros Hl. destruct (push_all_ok 0 addrs (initialize s0)) as (s16 & Hs & Hsp).
  - rewrite Hl. simpl. unfold STACK_UP, STACK_LOW. lia.
  - exists s16. split; [exact Hs|]. unfold push. rewrite Hsp, Hl. reflexivity.
Qed.

(** C2 (failing input): wherever [RAM] really lies ([ram_base >= 2], true of
    any object of a running process), sixteen pushes onto a reset stack
    succeed and the 17th is not refused either: it stores its address at
    [RAM[0xE9E..0xE9F]], below the stack area, and moves [sp] further down. *)
Theorem push_17th_not_refused ram_base s0 addrs a :
  2 <= ram_base -> length addrs = 16%nat ->
  exists s16 s17, push_all ram_base addrs (initialize s0) = Ok s16 /\
    push ram_base a s16 = Ok s17 /\
    sp s17 = 0xE9C /\ load16 (RAM s17) 0xE9E = u16 a.
Proof.
  intros Hb Hl.
  destruct (push_all_ok ram_base addrs (initialize s0)) as (s16 & Hs & Hsp).
  - rewrite Hl. simpl. unfold STACK_UP, STACK_LOW. lia.
  - rewrite Hl in Hsp. simpl in Hsp.
    exists s16. eexists. split; [exact Hs|]. unfold push.
    replace (ram_base + sp s16 <? STACK_UP) with false
      by (symmetry; apply Z.ltb_ge; unfold STACK_UP, STACK_LOW in *; lia).
    split; [reflexivity|]. simpl. rewrite Hsp. split; [reflexivity|].
    apply load16_store16, u16_range.
Qed.

Lemma push_17th_not_refused_witness :
  2 <= 0x404060 /\ length (repeat 0x202 16) = 16%nat /\
  exists s16 s17, push_all 0x404060 (repeat 0x202 16) (initialize zero_state) = Ok s16 /\
    push 0x404060 0x202 s16 = Ok s17 /\
    sp s17 = 0xE9C /\ load16 (RAM s17) 0xE9E = u16 0x202.
Proof.
  split; [lia|]. split; [reflexivity|].
  apply push_17th_not_refused; [lia | reflexivity].
Defined.

(** ** Memory accesses relative to I *)

Ltac eqb_cases :=
  repeat match goal with
         | |- context [?a =? ?b] => destruct (Z.eqb_spec a b); try lia
         end.


(** Programs that set V0 = 255 and execute LD B,V0, with I = 0x300 and with
    I = 0xFFF. *)
Definition bcd_ok_rom : list Z := [0xA3; 0x00; 0x60; 0xFF; 0xF0; 0x33].
Definition bcd_ok_s0 : state := ok_or (boot zero_state bcd_ok_rom) zero_state.
Definition bcd_ok_s2 : state :=
  ok_or (run_steps 0x404060 (fun _ => 0) 2 bcd_ok_s0) zero_state.



(** ** The program counter *)

Lemma ADDR_range i : 0 <= ADDR i < 65536.
Proof.
  unfold ADDR. change 0xFFF with (Z.ones 12). rewrite Z.land_ones by lia.
  pose proof (Z.mod_pos_bound i (2 ^ 12)). change (2 ^ 12) with 4096 in *. lia.
Qed.

(** A completed BCD, STA, LDA or DRW leaves PC, I, the keys, the draw flag,
    [sp] and the timers as they were. *)
Lemma array_ops_Ok i s s' :
  (BCD i s = Ok s' \/ STA i s = Ok s' \/ LDA i s = Ok s' \/ DRW i s = Ok s') ->
  PC s' = PC s /\ I s' = I s /\ keys s' = keys s /\ draw s' = draw s /\
  sp s' = sp s /\ delay_timer s' = delay_timer s /\ sound_timer s' = sound_timer s.
Proof.
  intros [H|[H|[H|H]]].
  - apply BCD_Ok_inv in H as (_ & _ & Heq & _). rewrite Heq. repeat split.
  - apply STA_Ok_inv in H as (_ & _ & Heq & _). rewrite Heq. repeat split.
  - apply LDA_Ok_inv in H as (_ & _ & Heq & _). rewrite Heq. repeat split.
  - apply DRW_Ok_inv in H as (_ & (HR & HP & HI & Hk & Hsp & Hd & Hs & Hdr & _) & _).
    repeat split; assumption.
Qed.

Lemma DRW_bind_inv i s s' :
  (let! s1 := DRW i s in Ok (set_draw s1 1)) = Ok s' ->
  exists s1, DRW i s = Ok s1 /\ s' = set_draw s1 1.
Proof.
  destruct (DRW i s) as [s1| |]; cbn [bind]; intros H; try discriminate.
  injection H as <-. eauto.
Qed.

Lemma skip_if_PC b s : 0 <= PC s < 65536 -> 0 <= PC (skip_if b s) < 65536.
Proof. intros H. destruct b; [apply u16_range | exact H]. Qed.

Lemma LDK_PC i s : 0 <= PC s < 65536 -> 0 <= PC (LDK i s) < 65536.
Proof. intros H. unfold LDK. destruct (first_key _); [exact H | apply u16_range]. Qed.

(** Every instruction leaves PC a 16-bit value. *)
Lemma execute_PC ram_base rnd i s s' :
  0 <= PC s < 65536 -> execute ram_base rnd i s = Ok s' -> 0 <= PC s' < 65536.
Proof.
  intros Hpc Hex. unfold execute in Hex. cbv zeta in Hex.
  repeat match type of Hex with
         | context [if ?b then _ else _] => destruct b
         end;
  try discriminate Hex.
  all: try (apply DRW_bind_inv in Hex as (s1 & Hd & ->); cbn [PC set_draw];
            rewrite (proj1 (array_ops_Ok _ _ _ (or_intror (or_intror (or_intror Hd)))));
            exact Hpc).
  all: try (rewrite (proj1 (array_ops_Ok i s s' ltac:(tauto))); exact Hpc).
  all: try (injection Hex as <-).
  all: try (unfold RET, pop in Hex; destruct (_ =? STACK_LOW);
            [discriminate | injection Hex as <-; apply u16_range]).
  all: try (unfold CALL, push in Hex; destruct (_ <? STACK_UP);
            [discriminate | injection Hex as <-; apply ADDR_range]).
  all: try exact Hpc.
  all: try (apply skip_if_PC; exact Hpc).
  all: try (apply LDK_PC; exact Hpc).
  all: try (unfold JP; apply ADDR_range).
  all: try (unfold JPR; apply u16_range).
Qed.

Lemma boot_PC s0 rom s : boot s0 rom = Ok s -> PC s = 0x200.
Proof.
  unfold boot, load_source. destruct (firstn _ rom); intros H; inversion H; reflexivity.
Qed.

Lemma JP_step ram_base rnd s :
  MSN (instr_at s) = 0x1 -> step ram_base rnd s = Ok (set_PC (set_PC s (u16 (PC s + 2))) (ADDR (instr_at s))).
Proof.
  intros Hm. rewrite step_unfold.
  set (i := instr_at s) in *; clearbody i.
  decode Hm. reflexivity.
Qed.

(** C9, amended: the only bound the code keeps on PC is that of its 16-bit
    type.  In every reachable state PC lies in 0..65535, and JP N sets PC to
    the 12-bit N as it is, odd or below 0x200 alike. *)
Theorem PC_bounded_only_by_its_type ram_base s0 rom :
  (forall s, reachable ram_base s0 rom s -> 0 <= PC s < 65536) /\
  (forall rnd s s', MSN (instr_at s) = 0x1 -> step ram_base rnd s = Ok s' ->
     PC s' = ADDR (instr_at s)).
Proof.
  split.
  - intros s Hr. induction Hr as [s Hb | s s' rnd Hr IH Hs | s k Hr IH].
    + rewrite (boot_PC _ _ _ Hb). lia.
    + rewrite step_unfold in Hs. eapply execute_PC; [|exact Hs]. apply u16_range.
    + exact IH.
  - intros rnd s s' Hm Hs. rewrite (JP_step _ _ _ Hm) in Hs.
    injection Hs as <-. reflexivity.
Qed.

(** A program whose first instruction jumps to the odd address 0x201. *)
Definition jp_odd_rom : list Z := [0x12; 0x01].
Definition jp_odd_s0 : state := ok_or (boot zero_state jp_odd_rom) zero_state.
Definition jp_odd_s1 : state := ok_or (step 0x404060 0 jp_odd_s0) zero_state.

Lemma jp_odd_boot : boot zero_state jp_odd_rom = Ok jp_odd_s0.
Proof. vm_compute. reflexivity. Qed.

Lemma jp_odd_step : step 0x404060 0 jp_odd_s0 = Ok jp_odd_s1.
Proof. vm_compute. reflexivity. Qed.

Lemma PC_bounded_only_by_its_type_witness :
  reachable 0x404060 zero_state jp_odd_rom jp_odd_s1 /\
  0 <= PC jp_odd_s1 < 65536 /\
  (MSN (instr_at jp_odd_s0) = 0x1 /\ PC jp_odd_s1 = ADDR (instr_at jp_odd_s0)).
Proof.
  assert (Hr : reachable 0x404060 zero_state jp_odd_rom jp_odd_s1)
    by (eapply reach_step; [apply reach_boot, jp_odd_boot | apply jp_odd_step]).
  assert (Hm : MSN (instr_at jp_odd_s0) = 0x1) by (vm_compute; reflexivity).
  destruct (PC_bounded_only_by_its_type 0x404060 zero_state jp_odd_rom) as [H1 H2].
  split; [exact Hr|]. split; [exact (H1 _ Hr)|].
  split; [exact Hm | exact (H2 0 _ _ Hm jp_odd_step)].
Defined.

(** C9 is false as stated: after one step of the program [JP 0x201] PC is
    the odd address 0x201. *)
Lemma PC_odd_after_jump :
  ~ (forall s, reachable 0x404060 zero_state jp_odd_rom s ->
       Z.even (PC s) = true /\ 0x200 <= PC s <= 4094).
Proof.
  intros H.
  assert (Hr : reachable 0x404060 zero_state jp_odd_rom jp_odd_s1)
    by (eapply reach_step; [apply reach_boot, jp_odd_boot | apply jp_odd_step]).
  destruct (H _ Hr) as [He _]. vm_compute in He. discriminate.
Qed.

(** ** Drawing (DRW) *)

(** C1, amended: DRW X,Y,n neither wraps nor clips.  For each set bit of
    each sprite row it XOR-toggles the framebuffer cell at linear index
    (VX + column) + (VY + row) * 64: a column past 63 lands in the next row.
    When the sprite rows lie in RAM and all these indices are below 2048,
    the step toggles exactly those cells and leaves every other cell as it
    was; an index outside the 2048-cell framebuffer is a write past the
    array, which C leaves undefined. *)
Theorem DRW_toggles_unwrapped_cells ram_base rnd s :
  MSN (instr_at s) = 0xD ->
  (forall y, 0 <= y < LSN (instr_at s) -> 0 <= I s + y < SIZE_MEM) ->
  ((forall k, DRW_hit (RAM s) (I s) (v s (VX (instr_at s))) (v s (VY (instr_at s)))
                (LSN (instr_at s)) k = true -> 0 <= k < WIDTH * HEIGHT) ->
   exists s', step ram_base rnd s = Ok s' /\
     forall k, screen s' k =
       if DRW_hit (RAM s) (I s) (v s (VX (instr_at s))) (v s (VY (instr_at s)))
            (LSN (instr_at s)) k
       then Z.lxor (screen s k) 1 else screen s k) /\
  ((exists k, DRW_hit (RAM s) (I s) (v s (VX (instr_at s))) (v s (VY (instr_at s)))
                (LSN (instr_at s)) k = true /\ ~ (0 <= k < WIDTH * HEIGHT)) ->
   step ram_base rnd s = Undefined).
Proof.
  intros Hm Hrows. rewrite (step_D ram_base rnd s Hm).
  set (s1 := set_PC s (u16 (PC s + 2))).
  change (RAM s) with (RAM s1). change (I s) with (I s1).
  change (v s) with (v s1). change (screen s) with (screen s1).
  change (I s) with (I s1) in Hrows.
  split.
  - intros Hcells.
    destruct (DRW_ok (instr_at s) s1) as (s' & Hs & _ & Hsc & _).
    { apply DRW_defined_iff. split; [exact Hrows | exact Hcells]. }
    rewrite Hs. cbn [bind]. eexists; split; [reflexivity|].
    intros k. cbn [screen set_draw]. apply Hsc.
  - intros (k & Hk & Hout). rewrite DRW_undef; [reflexivity|].
    apply not_true_iff_false. intros Hdef.
    apply DRW_defined_iff in Hdef as [_ Hcells]. apply Hout, Hcells, Hk.
Qed.

(** Programs drawing glyph 0 (rows F0 90 90 90 F0) from address 0 at
    (62, 0), one row, and at (62, 31), two rows. *)
Definition drw_right_rom : list Z := [0x60; 0x3E; 0x61; 0x00; 0xA0; 0x00; 0xD0; 0x11].
Definition drw_bottom_rom : list Z := [0x60; 0x3E; 0x61; 0x1F; 0xA0; 0x00; 0xD0; 0x12].
Definition drw_right_s0 : state := ok_or (boot zero_state drw_right_rom) zero_state.
Definition drw_bottom_s0 : state := ok_or (boot zero_state drw_bottom_rom) zero_state.
Definition drw_right_s3 : state :=
  ok_or (run_steps 0x404060 (fun _ => 0) 3 drw_right_s0) zero_state.

Lemma DRW_toggles_unwrapped_cells_witness :
  MSN (instr_at drw_right_s3) = 0xD /\
  (forall y, 0 <= y < LSN (instr_at drw_right_s3) ->
     0 <= I drw_right_s3 + y < SIZE_MEM) /\
  (forall k, DRW_hit (RAM drw_right_s3) (I drw_right_s3)
       (v drw_right_s3 (VX (instr_at drw_right_s3)))
       (v drw_right_s3 (VY (instr_at drw_right_s3)))
       (LSN (instr_at drw_right_s3)) k = true -> 0 <= k < WIDTH * HEIGHT) /\
  exists s', step 0x404060 0 drw_right_s3 = Ok s' /\
    forall k, screen s' k =
      if DRW_hit (RAM drw_right_s3) (I drw_right_s3)
           (v drw_right_s3 (VX (instr_at drw_right_s3)))
           (v drw_right_s3 (VY (instr_at drw_right_s3)))
           (LSN (instr_at drw_right_s3)) k
      then Z.lxor (screen drw_right_s3 k) 1 else screen drw_right_s3 k.
Proof.
  assert (H : MSN (instr_at drw_right_s3) = 0xD) by (vm_compute; reflexivity).
  assert (Hdef : DRW_defined (RAM drw_right_s3) (I drw_right_s3)
                   (v drw_right_s3 (VX (instr_at drw_right_s3)))
                   (v drw_right_s3 (VY (instr_at drw_right_s3)))
                   (LSN (instr_at drw_right_s3)) = true)
    by (vm_compute; reflexivity).
  apply DRW_defined_iff in Hdef as [Hrows Hcells].
  split; [exact H|]. split; [exact Hrows|]. split; [exact Hcells|].
  exact (proj1 (DRW_toggles_unwrapped_cells 0x404060 0 _ H Hrows) Hcells).
Defined.

(** C1 is false as stated.  Drawing the row F0 at (62, 0) lights cell 64,
    i.e. (0, 1), for sprite column 2, and leaves cell 0, i.e.
    ((62 + 2) mod 64, 0), dark.  Drawing two rows at (62, 31) does not wrap
    the second row to the top: it targets cell 62 + 32 * 64 = 2110, past the
    2048-cell framebuffer, and the step has no defined outcome. *)
Lemma DRW_does_not_wrap :
  (exists s, run_steps 0x404060 (fun _ => 0) 4 drw_right_s0 = Ok s /\
     screen s 0 = 0 /\ screen s 64 = 1) /\
  (exists s, run_steps 0x404060 (fun _ => 0) 3 drw_bottom_s0 = Ok s /\
     instr_at s = 0xD012 /\
     DRW_hit (RAM s) (I s) (v s 0) (v s 1) 2 (62 + 32 * WIDTH) = true /\
     step 0x404060 0 s = Undefined).
Proof.
  split; eexists; (split; [vm_compute; reflexivity | repeat split; vm_compute; reflexivity]).
Qed.

(** * Further properties of the instruction set *)

(** ** Registers and bytes *)

Lemma set_reg_v_eq s k x : v (set_reg s k x) k = u8 x.
Proof. apply upd_eq. Qed.

Lemma set_reg_v_neq s k x j : j <> k -> v (set_reg s k x) j = v s j.
Proof. intros H. apply upd_neq, H. Qed.

Lemma u8_small x : 0 <= x < 256 -> u8 x = x.
Proof. unfold u8. apply Z.mod_small. Qed.

Lemma u8_range x : 0 <= u8 x < 256.
Proof. unfold u8. apply Z.mod_pos_bound. lia. Qed.

(** A boolean property of bytes checked on all 256 of them. *)
Lemma forall_byte (P : Z -> bool) :
  forallb P (zseq 256) = true -> forall x, 0 <= x < 256 -> P x = true.
Proof.
  intros H x Hx. rewrite forallb_forall in H. apply H, in_zseq, Hx.
Qed.

(** ADD X,Y with neither operand VF: VX receives the sum modulo 256 and VF
    is 1 exactly when the unsigned sum exceeds 255. *)
Theorem ADD_sum_and_carry i s :
  VX i <> 0xF -> VY i <> 0xF ->
  0 <= v s (VX i) < 256 -> 0 <= v s (VY i) < 256 ->
  v (ADD i s) (VX i) = (v s (VX i) + v s (VY i)) mod 256 /\
  v (ADD i s) 0xF = (if 255 <? v s (VX i) + v s (VY i) then 1 else 0).
Proof.
  intros Hx Hy Ha Hb. destruct (ADD_no_VF i s Hx Hy) as [H1 H2].
  split; [exact H1|]. rewrite H2.
  destruct (Z.gtb_spec (v s (VX i)) (0xFF - v s (VY i))),
           (Z.ltb_spec 255 (v s (VX i) + v s (VY i))); lia.
Qed.

Lemma ADD_sum_and_carry_witness :
  let s := regs_state [0xFF; 0x01] in
  VX 0x8014 <> 0xF /\ VY 0x8014 <> 0xF /\
  0 <= v s (VX 0x8014) < 256 /\ 0 <= v s (VY 0x8014) < 256 /\
  v (ADD 0x8014 s) (VX 0x8014) = (v s (VX 0x8014) + v s (VY 0x8014)) mod 256 /\
  v (ADD 0x8014 s) 0xF =
    (if 255 <? v s (VX 0x8014) + v s (VY 0x8014) then 1 else 0).
Proof.
  intros s.
  assert (H1 : VX 0x8014 <> 0xF) by (vm_compute; congruence).
  assert (H2 : VY 0x8014 <> 0xF) by (vm_compute; congruence).
  assert (H3 : 0 <= v s (VX 0x8014) < 256) by (vm_compute; split; congruence).
  assert (H4 : 0 <= v s (VY 0x8014) < 256) by (vm_compute; split; congruence).
  do 4 (split; [assumption|]).
  exact (ADD_sum_and_carry 0x8014 s H1 H2 H3 H4).
Defined.

(** Unfold a flag-first arithmetic instruction down to its two register
    writes. *)
Ltac regs_out :=
  repeat first [ rewrite set_reg_v_eq | rewrite set_reg_v_neq by lia ].

(** SUB X,Y with neither operand VF: VX receives the difference modulo 256
    and VF is 1 exactly when there was no borrow (VX >= VY). *)
Theorem SUB_difference_and_borrow i s :
  VX i <> 0xF -> VY i <> 0xF ->
  v (SUB i s) (VX i) = (v s (VX i) - v s (VY i)) mod 256 /\
  v (SUB i s) 0xF = (if v s (VY i) <=? v s (VX i) then 1 else 0).
Proof.
  intros Hx Hy. unfold SUB; cbv zeta. regs_out. split; [reflexivity|].
  destruct (Z.gtb_spec (v s (VY i)) (v s (VX i))),
           (Z.leb_spec (v s (VY i)) (v s (VX i))); try lia; reflexivity.
Qed.

Lemma SUB_difference_and_borrow_witness :
  let s := regs_state [0x01; 0x02] in
  VX 0x8015 <> 0xF /\ VY 0x8015 <> 0xF /\
  v (SUB 0x8015 s) (VX 0x8015) = (v s (VX 0x8015) - v s (VY 0x8015)) mod 256 /\
  v (SUB 0x8015 s) 0xF = (if v s (VY 0x8015) <=? v s (VX 0x8015) then 1 else 0).
Proof.
  intros s.
  assert (H1 : VX 0x8015 <> 0xF) by (vm_compute; congruence).
  assert (H2 : VY 0x8015 <> 0xF) by (vm_compute; congruence).
  split; [exact H1|]. split; [exact H2|].
  exact (SUB_difference_and_borrow 0x8015 s H1 H2).
Defined.

(** SUBN X,Y with neither operand VF: VX receives VY - VX modulo 256 and
    VF is 1 exactly when VY >= VX. *)
Theorem SUBN_difference_and_borrow i s :
  VX i <> 0xF -> VY i <> 0xF ->
  v (SUBN i s) (VX i) = (v s (VY i) - v s (VX i)) mod 256 /\
  v (SUBN i s) 0xF = (if v s (VX i) <=? v s (VY i) then 1 else 0).
Proof.
  intros Hx Hy. unfold SUBN; cbv zeta. regs_out. split; [reflexivity|].
  destruct (Z.gtb_spec (v s (VX i)) (v s (VY i))),
           (Z.leb_spec (v s (VX i)) (v s (VY i))); try lia; reflexivity.
Qed.

Lemma SUBN_difference_and_borrow_witness :
  let s := regs_state [0x05; 0x03] in
  VX 0x8017 <> 0xF /\ VY 0x8017 <> 0xF /\
  v (SUBN 0x8017 s) (VX 0x8017) = (v s (VY 0x8017) - v s (VX 0x8017)) mod 256 /\
  v (SUBN 0x8017 s) 0xF = (if v s (VX 0x8017) <=? v s (VY 0x8017) then 1 else 0).
Proof.
  intros s.
  assert (H1 : VX 0x8017 <> 0xF) by (vm_compute; congruence).
  assert (H2 : VY 0x8017 <> 0xF) by (vm_compute; congruence).
  split; [exact H1|]. split; [exact H2|].
  exact (SUBN_difference_and_borrow 0x8017 s H1 H2).
Defined.

(** SHR X and SHL X on a byte register other than VF: the bit shifted out
    lands in VF. *)
Theorem SHR_SHL_shifted_bit i s :
  VX i <> 0xF -> 0 <= v s (VX i) < 256 ->
  v (SHR i s) (VX i) = v s (VX i) / 2 /\ v (SHR i s) 0xF = v s (VX i) mod 2 /\
  v (SHL i s) (VX i) = (2 * v s (VX i)) mod 256 /\
  v (SHL i s) 0xF = v s (VX i) / 128.
Proof.
  intros Hx Hb. unfold SHR, SHL, LSBI, MSBR; cbv zeta. regs_out.
  generalize dependent (v s (VX i)). intros a Ha.
  apply (forall_byte (fun a =>
    (u8 (Z.shiftr a 1) =? a / 2) && (u8 (Z.land a 1) =? a mod 2) &&
    (u8 (Z.shiftl a 1) =? (2 * a) mod 256) && (u8 (Z.shiftr a 7) =? a / 128)))
    in Ha; [|vm_compute; reflexivity].
  rewrite !andb_true_iff, !Z.eqb_eq in Ha. tauto.
Qed.

Lemma SHR_SHL_shifted_bit_witness :
  let s := regs_state [0x81] in
  VX 0x8006 <> 0xF /\ 0 <= v s (VX 0x8006) < 256 /\
  v (SHR 0x8006 s) (VX 0x8006) = v s (VX 0x8006) / 2 /\
  v (SHR 0x8006 s) 0xF = v s (VX 0x8006) mod 2 /\
  v (SHL 0x8006 s) (VX 0x8006) = (2 * v s (VX 0x8006)) mod 256 /\
  v (SHL 0x8006 s) 0xF = v s (VX 0x8006) / 128.
Proof.
  intros s.
  assert (H1 : VX 0x8006 <> 0xF) by (vm_compute; congruence).
  assert (H2 : 0 <= v s (VX 0x8006) < 256) by (vm_compute; split; congruence).
  split; [exact H1|]. split; [exact H2|].
  exact (SHR_SHL_shifted_bit 0x8006 s H1 H2).
Defined.

(** SHR F and SHL F: the shift is applied to the flag just written, so SHR F
    always leaves 0 in VF and SHL F on a byte leaves 0 or 2 in VF, never the
    shifted value. *)
Theorem SHR_SHL_on_VF i s :
  VX i = 0xF -> 0 <= v s 0xF < 256 ->
  v (SHR i s) 0xF = 0 /\ v (SHL i s) 0xF = 2 * (v s 0xF / 128).
Proof.
  intros Hx Hb. unfold SHR, SHL, LSBI, MSBR; cbv zeta. rewrite !Hx, !set_reg_v_eq.
  generalize dependent (v s 0xF). intros a Ha.
  apply (forall_byte (fun a =>
    (u8 (Z.shiftr (u8 (Z.land a 1)) 1) =? 0) &&
    (u8 (Z.shiftl (u8 (Z.shiftr a 7)) 1) =? 2 * (a / 128))))
    in Ha; [|vm_compute; reflexivity].
  rewrite !andb_true_iff, !Z.eqb_eq in Ha. tauto.
Qed.

Lemma SHR_SHL_on_VF_witness :
  let s := set_v zero_state (fun _ => 0xFF) in
  VX 0x8F06 = 0xF /\ 0 <= v s 0xF < 256 /\ v (SHR 0x8F06 s) 0xF = 0 /\ v (SHL 0x8F06 s) 0xF = 2 * (v s 0xF / 128).
Proof.
  intros s.
  assert (H1 : VX 0x8F06 = 0xF) by reflexivity.
  assert (H2 : 0 <= v s 0xF < 256) by (vm_compute; split; congruence).
  split; [exact H1|]. split; [exact H2|].
  exact (SHR_SHL_on_VF 0x8F06 s H1 H2).
Defined.

(** ** The index register and memory through I *)

(** ADD I,X with X other than VF: I receives [I + VX] modulo 2^16 and VF
    records whether the sum went past 0xFFF. *)
Theorem IINC_sum_and_overflow i s :
  VX i <> 0xF ->
  I (IINC i s) = (I s + v s (VX i)) mod 65536 /\
  v (IINC i s) 0xF = (if 0xFFF <? I s + v s (VX i) then 1 else 0).
Proof.
  intros Hx. unfold IINC; cbv zeta. cbn [I set_I set_reg set_v v].
  rewrite upd_neq by lia. rewrite upd_eq. split; [reflexivity|].
  destruct (Z.gtb_spec (I s + v s (VX i)) 0xFFF),
           (Z.ltb_spec 0xFFF (I s + v s (VX i))); try lia; reflexivity.
Qed.

Lemma IINC_sum_and_overflow_witness :
  let s := set_I (regs_state [0; 0; 0; 0x10]) 0xFF8 in
  VX 0xF31E <> 0xF /\
  I (IINC 0xF31E s) = (I s + v s (VX 0xF31E)) mod 65536 /\
  v (IINC 0xF31E s) 0xF = (if 0xFFF <? I s + v s (VX 0xF31E) then 1 else 0).
Proof.
  intros s.
  assert (H : VX 0xF31E <> 0xF) by (vm_compute; congruence).
  split; [exact H|]. exact (IINC_sum_and_overflow 0xF31E s H).
Defined.

(** ADD I,F: the overflow flag is written before the addition, so I grows
    by that flag (0 or 1) and not by the value VF held. *)
Theorem IINC_VF_adds_the_flag i s :
  VX i = 0xF ->
  I (IINC i s) = u16 (I s + (if 0xFFF <? I s + v s 0xF then 1 else 0)).
Proof.
  intros Hx. unfold IINC; cbv zeta. cbn [I set_I set_reg set_v v].
  rewrite Hx, upd_eq. f_equal. f_equal.
  destruct (Z.gtb_spec (I s + v s 0xF) 0xFFF),
           (Z.ltb_spec 0xFFF (I s + v s 0xF)); try lia; reflexivity.
Qed.

Lemma IINC_VF_adds_the_flag_witness :
  let s := set_v zero_state (fun _ => 0x80) in
  VX 0xFF1E = 0xF /\
  I (IINC 0xFF1E s) = u16 (I s + (if 0xFFF <? I s + v s 0xF then 1 else 0)).
Proof.
  intros s.
  assert (H : VX 0xFF1E = 0xF) by reflexivity.
  split; [exact H|]. exact (IINC_VF_adds_the_flag 0xFF1E s H).
Defined.

(** LD B,X on a byte, with I..I+2 inside RAM: the three bytes written at
    I, I+1 and I+2 are the decimal digits of VX, most significant first; I
    and the registers are unchanged. *)
Theorem BCD_decimal_digits i s :
  0 <= v s (VX i) < 256 -> 0 <= I s -> I s + 2 < SIZE_MEM ->
  exists s', BCD i s = Ok s' /\
  let d0 := RAM s' (I s) in
  let d1 := RAM s' (I s + 1) in
  let d2 := RAM s' (I s + 2) in
  100 * d0 + 10 * d1 + d2 = v s (VX i) /\
  0 <= d0 < 10 /\ 0 <= d1 < 10 /\ 0 <= d2 < 10 /\
  I s' = I s /\ v s' = v s.
Proof.
  intros Hb H0 H2. destruct (BCD_ok i s H0 H2) as (s' & Hs & Heq & Hr).
  exists s'. split; [exact Hs|]. cbv zeta.
  assert (HI : I s' = I s) by (rewrite Heq; reflexivity).
  assert (Hv : v s' = v s) by (rewrite Heq; reflexivity).
  rewrite !Hr. eqb_cases.
  generalize dependent (v s (VX i)). intros a Ha.
  apply (forall_byte (fun a =>
    let d0 := u8 (a / 100) in let d1 := u8 (a / 10 mod 10) in
    let d2 := u8 (a mod 100 mod 10) in
    (100 * d0 + 10 * d1 + d2 =? a) && (0 <=? d0) && (d0 <? 10) &&
    (0 <=? d1) && (d1 <? 10) && (0 <=? d2) && (d2 <? 10)))
    in Ha; [|vm_compute; reflexivity].
  cbv zeta in Ha. rewrite !andb_true_iff, Z.eqb_eq, !Z.leb_le, !Z.ltb_lt in Ha.
  repeat split; try assumption; tauto.
Qed.

Lemma BCD_decimal_digits_witness :
  let s := set_I (regs_state [0; 0; 0xFE]) 0x300 in
  0 <= v s (VX 0xF233) < 256 /\ 0 <= I s /\ I s + 2 < SIZE_MEM /\
  exists s', BCD 0xF233 s = Ok s' /\
  let d0 := RAM s' (I s) in
  let d1 := RAM s' (I s + 1) in
  let d2 := RAM s' (I s + 2) in
  100 * d0 + 10 * d1 + d2 = v s (VX 0xF233) /\
  0 <= d0 < 10 /\ 0 <= d1 < 10 /\ 0 <= d2 < 10 /\
  I s' = I s /\ v s' = v s.
Proof.
  intros s.
  assert (H : 0 <= v s (VX 0xF233) < 256) by (vm_compute; split; congruence).
  assert (H0 : 0 <= I s) by (vm_compute; congruence).
  assert (H2 : I s + 2 < SIZE_MEM) by (vm_compute; reflexivity).
  split; [exact H|]. split; [exact H0|]. split; [exact H2|].
  exact (BCD_decimal_digits 0xF233 s H H0 H2).
Defined.

(** LD [I],X followed by LD X,[I] with the same X, with I..I+X inside RAM,
    gives every register its old value back, when V0..VX hold bytes. *)
Theorem STA_then_LDA_restores_registers i s :
  (forall j, 0 <= j <= VX i -> 0 <= v s j < 256) ->
  0 <= I s -> I s + VX i < SIZE_MEM ->
  exists s1 s2, STA i s = Ok s1 /\ LDA i s1 = Ok s2 /\ forall j, v s2 j = v s j.
Proof.
  intros Hb H0 H1. pose proof (VX_nonneg i) as Hx.
  destruct (STA_ok i s H0 H1) as (s1 & Hs1 & Heq1 & Hr1).
  assert (HI : I s1 = I s) by (rewrite Heq1; reflexivity).
  assert (Hv : v s1 = v s) by (rewrite Heq1; reflexivity).
  destruct (LDA_ok i s1) as (s2 & Hs2 & _ & Hr2); [lia | lia |].
  exists s1, s2. split; [exact Hs1|]. split; [exact Hs2|].
  intros j. rewrite Hr2, Hv, HI, Hr1.
  destruct (Z.leb_spec 0 j), (Z.leb_spec j (VX i)); cbn [andb]; try reflexivity.
  replace ((I s <=? I s + j) && (I s + j <=? I s + VX i)) with true
    by (symmetry; apply andb_true_iff; split; apply Z.leb_le; lia).
  replace (I s + j - I s) with j by lia.
  unfold u8. rewrite Zmod_mod. apply Z.mod_small, Hb. lia.
Qed.

Lemma STA_then_LDA_restores_registers_witness :
  let s := set_I (regs_state [0x11; 0x22; 0x33; 0x44]) 0x300 in
  (forall j, 0 <= j <= VX 0xF255 -> 0 <= v s j < 256) /\
  0 <= I s /\ I s + VX 0xF255 < SIZE_MEM /\
  exists s1 s2, STA 0xF255 s = Ok s1 /\ LDA 0xF255 s1 = Ok s2 /\
    forall j, v s2 j = v s j.
Proof.
  intros s.
  assert (H : forall j, 0 <= j <= VX 0xF255 -> 0 <= v s j < 256).
  { intros j Hj. change (VX 0xF255) with 2 in Hj.
    assert (j = 0 \/ j = 1 \/ j = 2) as [ -> | [ -> | -> ] ] by lia;
      vm_compute; split; congruence. }
  assert (H0 : 0 <= I s) by (vm_compute; congruence).
  assert (H1 : I s + VX 0xF255 < SIZE_MEM) by (vm_compute; reflexivity).
  split; [exact H|]. split; [exact H0|]. split; [exact H1|].
  exact (STA_then_LDA_restores_registers 0xF255 s H H0 H1).
Defined.

(** RND X,kk: every bit set in the result is set in the mask kk, whatever
    [rand()] returned. *)
Theorem RND_bits_within_mask rnd i s n :
  Z.testbit (v (RND rnd i s) (VX i)) n = true -> Z.testbit (BYTE i) n = true.
Proof.
  unfold RND. rewrite set_reg_v_eq. unfold u8.
  change 256 with (2 ^ 8). rewrite <- !Z.land_ones by lia.
  rewrite !Z.land_spec. rewrite !andb_true_iff. tauto.
Qed.

Lemma RND_bits_within_mask_witness :
  Z.testbit (v (RND 0x7FFF 0xC00F zero_state) (VX 0xC00F)) 3 = true /\
  Z.testbit (BYTE 0xC00F) 3 = true.
Proof.
  assert (H : Z.testbit (v (RND 0x7FFF 0xC00F zero_state) (VX 0xC00F)) 3 = true)
    by (vm_compute; reflexivity).
  split; [exact H|]. exact (RND_bits_within_mask 0x7FFF 0xC00F zero_state 3 H).
Defined.

(** ** The stack, continued *)

(** [pop] returns what the last [push] stored, with [sp] back where it was,
    unless [pop]'s own guard fires. *)
Theorem push_then_pop ram_base a s s1 :
  push ram_base a s = Ok s1 -> ram_base + sp s1 <> STACK_LOW ->
  exists s2, pop ram_base s1 = (u16 a, Ok s2) /\ sp s2 = sp s /\ RAM s2 = RAM s1.
Proof.
  unfold push. destruct (_ <? STACK_UP); [discriminate|].
  intros H; injection H as <-. cbn [sp set_sp]. intros Hne.
  unfold pop. cbn [sp set_sp RAM set_RAM].
  apply Z.eqb_neq in Hne. rewrite Hne.
  replace (sp s - 2 + 2) with (sp s) by lia.
  rewrite load16_store16 by apply u16_range.
  eexists. split; [reflexivity|]. split; reflexivity.
Qed.

(** [push] as the only step of a machine just initialized. *)
Definition push_then_pop_s1 : state :=
  ok_or (push 0x404060 0x2FE (initialize zero_state)) zero_state.

Lemma push_then_pop_witness :
  push 0x404060 0x2FE (initialize zero_state) = Ok push_then_pop_s1 /\
  0x404060 + sp push_then_pop_s1 <> STACK_LOW /\
  exists s2, pop 0x404060 push_then_pop_s1 = (u16 0x2FE, Ok s2) /\
    sp s2 = sp (initialize zero_state) /\ RAM s2 = RAM push_then_pop_s1.
Proof.
  assert (H1 : push 0x404060 0x2FE (initialize zero_state) = Ok push_then_pop_s1)
    by (vm_compute; reflexivity).
  assert (H2 : 0x404060 + sp push_then_pop_s1 <> STACK_LOW)
    by (vm_compute; congruence).
  split; [exact H1|]. split; [exact H2|].
  exact (push_then_pop 0x404060 0x2FE (initialize zero_state) _ H1 H2).
Defined.

(** ** Start-up: [initialize] and [load_source] *)

Lemma font_set_length : length font_set = 80%nat.
Proof. reflexivity. Qed.

Lemma initialize_RAM s0 k :
  RAM (initialize s0) k =
  if (0 <=? k) && (k <? SIZE_FS) then nth (Z.to_nat k) font_set 0
  else if (0 <=? k) && (k <? SIZE_MEM) then 0 else RAM s0 k.
Proof.
  unfold initialize, CLS, copy_bytes, clear_range.
  cbn [RAM set_RAM set_PC set_I set_sp set_v set_keys set_screen set_delay
       set_sound set_draw].
  rewrite font_set_length. unfold SIZE_FS, SIZE_MEM.
  replace (k - 0) with k by lia. change (0 + Z.of_nat 80) with 80.
  destruct (Z.leb_spec 0 k), (Z.ltb_spec k 80), (Z.ltb_spec k 4096);
    simpl; try reflexivity; lia.
Qed.

Lemma load_source_Ok rom s s' :
  load_source rom s = Ok s' ->
  rom <> [] /\ s' = set_RAM s (copy_bytes (RAM s) 0x200 (firstn 0xCA0 rom)).
Proof.
  unfold load_source. destruct rom as [|b rom]; [discriminate|].
  intros H. injection H as <-. split; [discriminate | reflexivity].
Qed.

Lemma boot_RAM s0 rom s k :
  boot s0 rom = Ok s ->
  RAM s k =
  if (0x200 <=? k) && (k <? 0x200 + Z.of_nat (length (firstn 0xCA0 rom)))
  then nth (Z.to_nat (k - 0x200)) (firstn 0xCA0 rom) 0
  else RAM (initialize s0) k.
Proof.
  intros H. apply load_source_Ok in H as [_ ->]. reflexivity.
Qed.

Lemma firstn_CA0_length (rom : list Z) :
  Z.of_nat (length (firstn 0xCA0 rom)) = Z.min (Z.of_nat (length rom)) 0xCA0.
Proof. rewrite length_firstn. lia. Qed.

(** [initialize] resets the whole machine whatever it held before: PC, I,
    the stack pointer, the timers and the draw flag; V0..VF, the keys and the
    2048 screen cells are zero; RAM holds the font set in its first 80
    bytes and zero in the rest of its 4096. *)
Theorem initialize_resets s0 :
  let s := initialize s0 in
  PC s = 0x200 /\ I s = 0 /\ sp s = STACK_LOW /\
  delay_timer s = 0 /\ sound_timer s = 0 /\ draw s = 0 /\
  (forall j, 0 <= j < NUM_REGS -> v s j = 0 /\ keys s j = 0) /\
  (forall k, 0 <= k < WIDTH * HEIGHT -> screen s k = 0) /\
  (forall k, 0 <= k < SIZE_FS -> RAM s k = nth (Z.to_nat k) font_set 0) /\
  (forall k, SIZE_FS <= k < SIZE_MEM -> RAM s k = 0).
Proof.
  cbv zeta. do 6 (split; [reflexivity|]). split; [|split; [|split]].
  - intros j Hj. unfold initialize, clear_range; cbn.
    unfold NUM_REGS, NUM_KEYS in *.
    destruct (Z.leb_spec 0 j), (Z.ltb_spec j 16); try lia. split; reflexivity.
  - intros k Hk. unfold initialize, CLS, clear_range; cbn -[WIDTH HEIGHT Z.mul].
    destruct (Z.leb_spec 0 k), (Z.ltb_spec k (WIDTH * HEIGHT)); try lia. reflexivity.
  - intros k Hk. rewrite initialize_RAM.
    destruct (Z.leb_spec 0 k), (Z.ltb_spec k SIZE_FS); try lia. reflexivity.
  - intros k Hk. rewrite initialize_RAM. unfold SIZE_FS, SIZE_MEM in *.
    destruct (Z.leb_spec 0 k), (Z.ltb_spec k 80), (Z.ltb_spec k 4096);
      simpl; try lia; reflexivity.
Qed.

(** [load_source] fails exactly on an empty ROM; otherwise it copies the
    first [min(length, 0xCA0)] bytes to RAM[0x200..] and changes nothing
    else: in particular nothing at or above STACK_UP = 0x200 + 0xCA0. *)
Theorem load_source_window rom s :
  (rom = [] -> load_source rom s = Exit Error_reading_ROM) /\
  (rom <> [] -> exists s', load_source rom s = Ok s' /\
     PC s' = PC s /\ I s' = I s /\ sp s' = sp s /\ v s' = v s /\
     screen s' = screen s /\
     (forall k, 0 <= k < Z.min (Z.of_nat (length rom)) 0xCA0 ->
        RAM s' (0x200 + k) = nth (Z.to_nat k) rom 0) /\
     (forall k, ~ (0x200 <= k < 0x200 + Z.min (Z.of_nat (length rom)) 0xCA0) ->
        RAM s' k = RAM s k) /\
     (forall k, STACK_UP <= k -> RAM s' k = RAM s k)).
Proof.
  split; [intros ->; reflexivity|]. intros Hne.
  assert (Hl : 0 <= Z.min (Z.of_nat (length rom)) 0xCA0 <= 0xCA0) by lia.
  unfold load_source. destruct (firstn 0xCA0 rom) as [|b bs] eqn:E.
  { apply (f_equal (@length Z)) in E. rewrite length_firstn in E.
    destruct rom; [congruence | simpl in E; lia]. }
  rewrite <- E.
  eexists. split; [reflexivity|]. cbn [PC I sp v screen RAM set_RAM].
  do 5 (split; [reflexivity|]).
  unfold copy_bytes. rewrite firstn_CA0_length.
  split; [|split].
  - intros k Hk.
    replace (0x200 <=? 0x200 + k) with true by (symmetry; apply Z.leb_le; lia).
    replace (0x200 + k <? _) with true by (symmetry; apply Z.ltb_lt; lia).
    cbv beta iota delta [andb]. replace (0x200 + k - 0x200) with k by lia.
    rewrite nth_firstn. replace (Z.to_nat k <? 0xCA0)%nat with true; [reflexivity|].
    symmetry. apply Nat.ltb_lt. lia.
  - intros k Hk.
    destruct (Z.leb_spec 0x200 k), (Z.ltb_spec k (0x200 + Z.min (Z.of_nat (length rom)) 0xCA0));
      simpl; try reflexivity. lia.
  - intros k Hk. unfold STACK_UP in Hk.
    destruct (Z.leb_spec 0x200 k), (Z.ltb_spec k (0x200 + Z.min (Z.of_nat (length rom)) 0xCA0));
      simpl; try reflexivity. lia.
Qed.

Lemma load_source_window_witness :
  exists s', load_source [0x12; 0x00] zero_state = Ok s' /\
    PC s' = PC zero_state /\ I s' = I zero_state /\ sp s' = sp zero_state /\
    v s' = v zero_state /\ screen s' = screen zero_state /\
    (forall k, 0 <= k < Z.min (Z.of_nat (length [0x12; 0x00])) 0xCA0 ->
       RAM s' (0x200 + k) = nth (Z.to_nat k) [0x12; 0x00] 0) /\
    (forall k, ~ (0x200 <= k < 0x200 + Z.min (Z.of_nat (length [0x12; 0x00])) 0xCA0) ->
       RAM s' k = RAM zero_state k) /\
    (forall k, STACK_UP <= k -> RAM s' k = RAM zero_state k).
Proof.
  apply (proj2 (load_source_window [0x12; 0x00] zero_state)). discriminate.
Defined.

(** [pop]'s guard compares the absolute address [ram_base + sp] with the
    offset [STACK_LOW], so after a successful boot, with RAM anywhere but at
    address 0, RET on the empty stack does not stop the emulator: it reads
    the cleared bytes RAM[0xEC0..0xEC1] and jumps to address 2. *)
Theorem RET_on_empty_stack_jumps_to_2 ram_base s0 rom s :
  boot s0 rom = Ok s -> ram_base <> 0 ->
  exists s', RET ram_base s = Ok s' /\ PC s' = 2 /\ sp s' = STACK_LOW + 2.
Proof.
  intros Hb Hr.
  assert (Hsp : sp s = STACK_LOW)
    by (apply load_source_Ok in Hb as [_ ->]; reflexivity).
  assert (Hm : forall k, 0xEA0 <= k < 0x1000 -> RAM s k = 0).
  { intros k Hk. rewrite (boot_RAM _ _ _ _ Hb), firstn_CA0_length.
    destruct (Z.leb_spec 0x200 k), (Z.ltb_spec k (0x200 + Z.min (Z.of_nat (length rom)) 0xCA0));
      try lia; cbv beta iota delta [andb].
    all: rewrite initialize_RAM; unfold SIZE_FS, SIZE_MEM.
    all: destruct (Z.leb_spec 0 k), (Z.ltb_spec k 80), (Z.ltb_spec k 4096);
      try lia; reflexivity. }
  unfold RET, pop. rewrite Hsp.
  replace (ram_base + STACK_LOW =? STACK_LOW) with false
    by (symmetry; apply Z.eqb_neq; lia).
  unfold load16. unfold STACK_LOW. rewrite !Hm by lia.
  eexists. split; [reflexivity|]. split; reflexivity.
Qed.

Lemma RET_on_empty_stack_jumps_to_2_witness :
  boot zero_state jp_odd_rom = Ok jp_odd_s0 /\ 0x404060 <> 0 /\
  exists s', RET 0x404060 jp_odd_s0 = Ok s' /\ PC s' = 2 /\ sp s' = STACK_LOW + 2.
Proof.
  assert (H1 : boot zero_state jp_odd_rom = Ok jp_odd_s0) by (vm_compute; reflexivity).
  assert (H2 : 0x404060 <> 0) by lia.
  split; [exact H1|]. split; [exact H2|].
  exact (RET_on_empty_stack_jumps_to_2 0x404060 zero_state jp_odd_rom jp_odd_s0 H1 H2).
Defined.

(** ** Timers *)

Lemma decrement_timers_fields s :
  let s' := decrement_timers s in
  delay_timer s' = (if delay_timer s >? 0 then delay_timer s - 1 else delay_timer s) /\
  sound_timer s' = (if sound_timer s >? 0 then sound_timer s - 1 else sound_timer s) /\
  RAM s' = RAM s /\ PC s' = PC s /\ I s' = I s /\ v s' = v s /\
  sp s' = sp s /\ screen s' = screen s /\ keys s' = keys s.
Proof.
  unfold decrement_timers.
  destruct (delay_timer s >? 0); cbn [sound_timer set_delay];
    destruct (sound_timer s >? 0); cbn; repeat split.
Qed.

(** [n] calls of [_decrement_timers] count each timer down by [n], stopping
    at zero, and touch nothing else. *)
Theorem decrement_timers_iter n s :
  0 <= delay_timer s -> 0 <= sound_timer s ->
  let s' := Nat.iter n decrement_timers s in
  delay_timer s' = Z.max 0 (delay_timer s - Z.of_nat n) /\
  sound_timer s' = Z.max 0 (sound_timer s - Z.of_nat n) /\
  RAM s' = RAM s /\ PC s' = PC s /\ I s' = I s /\ v s' = v s /\
  sp s' = sp s /\ screen s' = screen s /\ keys s' = keys s.
Proof.
  intros Hd Hs. induction n as [|n IH]; cbv zeta in *.
  - change (Nat.iter 0 decrement_timers s) with s. repeat split; try reflexivity; lia.
  - change (Nat.iter (S n) decrement_timers s)
      with (decrement_timers (Nat.iter n decrement_timers s)). set (t := Nat.iter n decrement_timers s) in *.
    destruct (decrement_timers_fields t) as (D & S & R & P & I' & V & SP & SC & K).
    destruct IH as (D' & S' & R' & P' & I'' & V' & SP' & SC' & K').
    rewrite D, S, R, P, I', V, SP, SC, K, D', S', R', P', I'', V', SP', SC', K'.
    repeat split; try reflexivity.
    + destruct (Z.gtb_spec (Z.max 0 (delay_timer s - Z.of_nat n)) 0); lia.
    + destruct (Z.gtb_spec (Z.max 0 (sound_timer s - Z.of_nat n)) 0); lia.
Qed.

Lemma decrement_timers_iter_witness :
  let s := set_sound (set_delay zero_state 3) 200 in
  0 <= delay_timer s /\ 0 <= sound_timer s /\
  (let s' := Nat.iter 5 decrement_timers s in
   delay_timer s' = Z.max 0 (delay_timer s - Z.of_nat 5) /\
   sound_timer s' = Z.max 0 (sound_timer s - Z.of_nat 5) /\
   RAM s' = RAM s /\ PC s' = PC s /\ I s' = I s /\ v s' = v s /\
   sp s' = sp s /\ screen s' = screen s /\ keys s' = keys s).
Proof.
  intros s.
  assert (H1 : 0 <= delay_timer s) by (vm_compute; congruence).
  assert (H2 : 0 <= sound_timer s) by (vm_compute; congruence).
  split; [exact H1|]. split; [exact H2|].
  exact (decrement_timers_iter 5 s H1 H2).
Defined.

(** ** Decoding *)

Lemma forall_word (P : Z -> bool) :
  forallb (fun hi => forallb (fun lo => P (hi * 256 + lo)) (zseq 256)) (zseq 256) = true ->
  forall i, 0 <= i < 65536 -> P i = true.
Proof.
  intros H i Hi. rewrite forallb_forall in H.
  assert (Hhi : In (i / 256) (zseq 256)).
  { apply in_zseq. split; [apply Z.div_pos | apply Z.div_lt_upper_bound]; lia. }
  specialize (H _ Hhi). rewrite forallb_forall in H.
  assert (Hlo : In (i mod 256) (zseq 256)) by (apply in_zseq, Z.mod_pos_bound; lia).
  specialize (H _ Hlo). rewrite (Z.div_mod i 256) by lia.
  rewrite Z.mul_comm. exact H.
Qed.

Lemma RET_not_unknown ram_base s : is_unknown (RET ram_base s) = false.
Proof. unfold RET, pop. destruct (_ =? STACK_LOW); reflexivity. Qed.

Lemma CALL_not_unknown ram_base i s : is_unknown (CALL ram_base i s) = false.
Proof. unfold CALL, push. destruct (_ <? STACK_UP); reflexivity. Qed.

Lemma array_ops_not_unknown i s :
  is_unknown (BCD i s) = false /\ is_unknown (STA i s) = false /\
  is_unknown (LDA i s) = false /\
  is_unknown (let! s1 := DRW i s in Ok (set_draw s1 1)) = false.
Proof.
  refine (conj _ (conj _ (conj _ _))).
  - destruct (BCD i s) eqn:E; try reflexivity.
    exfalso. exact (proj1 (array_ops_no_exit i s e) E).
  - destruct (STA i s) eqn:E; try reflexivity.
    exfalso. exact (proj1 (proj2 (array_ops_no_exit i s e)) E).
  - destruct (LDA i s) eqn:E; try reflexivity.
    exfalso. exact (proj1 (proj2 (proj2 (array_ops_no_exit i s e))) E).
  - destruct (DRW i s) eqn:E; try reflexivity.
    exfalso. exact (proj2 (proj2 (proj2 (array_ops_no_exit i s e))) E).
Qed.

(** Whether [execute] rejects a word depends on the word alone. *)
Lemma execute_unknown_indep rb rnd i s rb' rnd' s' :
  is_unknown (execute rb rnd i s) = is_unknown (execute rb' rnd' i s').
Proof.
  unfold execute. cbv zeta.
  repeat match goal with
         | |- context [if ?b then _ else _] => destruct b
         end;
  rewrite ?RET_not_unknown, ?CALL_not_unknown; try reflexivity.
  all: destruct (array_ops_not_unknown i s) as (B & S & L & D);
       destruct (array_ops_not_unknown i s') as (B' & S' & L' & D');
       first [ rewrite B, B' | rewrite S, S' | rewrite L, L' | rewrite D, D' ];
       reflexivity.
Qed.

Lemma execute_unknown_table :
  forall i, 0 <= i < 65536 ->
  Bool.eqb (is_unknown (execute 0 0 i zero_state)) (negb (known_opcode i)) = true.
Proof. apply forall_word. vm_compute. reflexivity. Qed.

Lemma is_unknown_exists r :
  is_unknown r = true <-> exists pc j, r = Exit (Unknown_instruction pc j).
Proof.
  split.
  - destruct r as [|[]|]; try discriminate. intros _. eauto.
  - intros (pc & j & ->). reflexivity.
Qed.

(** A step stops with "Unknown instruction" exactly when the fetched word
    matches none of the instruction forms listed in [execute]'s comments;
    which state, stack placement or random value is used plays no part. *)
Theorem step_unknown_iff_not_in_table ram_base rnd s :
  (exists pc j, step ram_base rnd s = Exit (Unknown_instruction pc j)) <->
  known_opcode (instr_at s) = false.
Proof.
  rewrite <- is_unknown_exists, step_unfold.
  rewrite (execute_unknown_indep _ _ _ _ 0 0 zero_state).
  pose proof (execute_unknown_table (instr_at s) (u16_range _)) as H.
  apply Bool.eqb_prop in H. rewrite H.
  destruct (known_opcode (instr_at s)); cbn [negb]; split; congruence.
Qed.

(** ** Drawing, continued *)

(** DRW X,Y,n whose accesses stay inside RAM and the framebuffer sets VF to
    1 exactly when a set bit of the sprite meets a cell that was lit before
    the draw, and to 0 otherwise. *)
Theorem DRW_collision_flag i s :
  DRW_defined (RAM s) (I s) (v s (VX i)) (v s (VY i)) (LSN i) = true ->
  exists s', DRW i s = Ok s' /\
    v s' 0xF =
      if DRW_collide (RAM s) (I s) (v s (VX i)) (v s (VY i)) (LSN i) (screen s)
      then 1 else 0.
Proof.
  intros Hdef. destruct (DRW_ok i s Hdef) as (s' & Hs & _ & _ & Hvf).
  exists s'. split; [exact Hs | exact Hvf].
Qed.

Lemma DRW_collision_flag_witness :
  DRW_defined (RAM drw_right_s3) (I drw_right_s3) (v drw_right_s3 (VX 0xD015))
    (v drw_right_s3 (VY 0xD015)) (LSN 0xD015) = true /\
  exists s', DRW 0xD015 drw_right_s3 = Ok s' /\
    v s' 0xF =
      if DRW_collide (RAM drw_right_s3) (I drw_right_s3) (v drw_right_s3 (VX 0xD015))
           (v drw_right_s3 (VY 0xD015)) (LSN 0xD015) (screen drw_right_s3)
      then 1 else 0.
Proof.
  assert (H : DRW_defined (RAM drw_right_s3) (I drw_right_s3)
                (v drw_right_s3 (VX 0xD015)) (v drw_right_s3 (VY 0xD015))
                (LSN 0xD015) = true) by (vm_compute; reflexivity).
  split; [exact H|]. exact (DRW_collision_flag 0xD015 drw_right_s3 H).
Defined.

(** Drawing the same sprite twice at the same place, with neither
    coordinate register VF and with accesses inside RAM and the
    framebuffer, gives the screen back as it was. *)
Theorem DRW_twice_restores_screen i s :
  VX i <> 0xF -> VY i <> 0xF ->
  DRW_defined (RAM s) (I s) (v s (VX i)) (v s (VY i)) (LSN i) = true ->
  exists s1 s2, DRW i s = Ok s1 /\ DRW i s1 = Ok s2 /\
    forall k, screen s2 k = screen s k.
Proof.
  intros Hx Hy Hdef.
  destruct (DRW_ok i s Hdef) as (s1 & Hs1 & Hf & Hsc1 & _).
  destruct Hf as (HR & _ & HI & _ & _ & _ & _ & _ & Hv).
  assert (Hdef1 : DRW_defined (RAM s1) (I s1) (v s1 (VX i)) (v s1 (VY i)) (LSN i) = true)
    by (rewrite HR, HI, !Hv by assumption; exact Hdef).
  destruct (DRW_ok i s1 Hdef1) as (s2 & Hs2 & _ & Hsc2 & _).
  exists s1, s2. split; [exact Hs1|]. split; [exact Hs2|].
  intros k. rewrite Hsc2, HR, HI, !Hv by assumption. rewrite Hsc1.
  destruct (DRW_hit _ _ _ _ _ k); [|reflexivity].
  rewrite Z.lxor_assoc, Z.lxor_nilpotent, Z.lxor_0_r. reflexivity.
Qed.

Lemma DRW_twice_restores_screen_witness :
  VX 0xD015 <> 0xF /\ VY 0xD015 <> 0xF /\
  DRW_defined (RAM drw_right_s3) (I drw_right_s3) (v drw_right_s3 (VX 0xD015))
    (v drw_right_s3 (VY 0xD015)) (LSN 0xD015) = true /\
  exists s1 s2, DRW 0xD015 drw_right_s3 = Ok s1 /\ DRW 0xD015 s1 = Ok s2 /\
    forall k, screen s2 k = screen drw_right_s3 k.
Proof.
  assert (H1 : VX 0xD015 <> 0xF) by (vm_compute; congruence).
  assert (H2 : VY 0xD015 <> 0xF) by (vm_compute; congruence).
  assert (H3 : DRW_defined (RAM drw_right_s3) (I drw_right_s3)
                 (v drw_right_s3 (VX 0xD015)) (v drw_right_s3 (VY 0xD015))
                 (LSN 0xD015) = true) by (vm_compute; reflexivity).
  split; [exact H1|]. split; [exact H2|]. split; [exact H3|].
  exact (DRW_twice_restores_screen 0xD015 drw_right_s3 H1 H2 H3).
Defined.

(** ** Ranges kept by every step *)

Create HintDb wf_db.

Ltac wf_unpack :=
  let Hv := fresh "Hv" in let HI := fresh "HI" in let Hd := fresh "Hd" in
  let Hs := fresh "Hs" in let Hsc := fresh "Hsc" in let Hdr := fresh "Hdr" in
  intros (Hv & HI & Hd & Hs & Hsc & Hdr); unfold wf;
  cbn [RAM PC I v keys sp screen delay_timer sound_timer draw
       set_RAM set_PC set_I set_v set_sp set_screen set_delay set_sound
       set_draw set_keys set_reg];
  refine (conj _ (conj _ (conj _ (conj _ (conj _ _))))); try assumption.

Lemma wf_set_reg s k x : wf s -> wf (set_reg s k x).
Proof.
  wf_unpack. intros j Hj. unfold upd. destruct (j =? k); [apply u8_range | auto].
Qed.

Lemma wf_set_RAM s m : wf s -> wf (set_RAM s m).
Proof. wf_unpack. Qed.

Lemma wf_set_v s vs :
  (forall j, 0 <= j < NUM_REGS -> 0 <= vs j < 256) -> wf s -> wf (set_v s vs).
Proof. intros Hx. wf_unpack. Qed.

Lemma wf_set_PC s p : wf s -> wf (set_PC s p).
Proof. wf_unpack. Qed.

Lemma wf_set_sp s p : wf s -> wf (set_sp s p).
Proof. wf_unpack. Qed.

Lemma wf_set_keys s k : wf s -> wf (set_keys s k).
Proof. wf_unpack. Qed.

Lemma wf_set_I s x : 0 <= x < 65536 -> wf s -> wf (set_I s x).
Proof. intros Hx. wf_unpack. Qed.

Lemma wf_set_delay s d : 0 <= d < 256 -> wf s -> wf (set_delay s d).
Proof. intros Hx. wf_unpack. Qed.

Lemma wf_set_sound s d : 0 <= d < 256 -> wf s -> wf (set_sound s d).
Proof. intros Hx. wf_unpack. Qed.

Lemma wf_set_draw s d : d = 0 \/ d = 1 -> wf s -> wf (set_draw s d).
Proof. intros Hx. wf_unpack. Qed.

Lemma wf_set_screen s scr :
  (forall k, 0 <= k < WIDTH * HEIGHT -> scr k = 0 \/ scr k = 1) ->
  wf s -> wf (set_screen s scr).
Proof. intros Hx. wf_unpack. Qed.

Lemma wf_reg s j : wf s -> 0 <= j < 16 -> 0 <= v s j < 256.
Proof. intros (Hv & _) Hj. apply Hv. exact Hj. Qed.

Lemma wf_skip_if b s : wf s -> wf (skip_if b s).
Proof. intros Hw. destruct b; [apply wf_set_PC|]; exact Hw. Qed.

Lemma wf_CLS s : wf s -> wf (CLS s).
Proof.
  intros Hw. apply wf_set_screen; [|exact Hw].
  intros k Hk. unfold clear_range.
  destruct (Z.leb_spec 0 k), (Z.ltb_spec k (WIDTH * HEIGHT)); try lia. auto.
Qed.

Lemma wf_DRW i s s' : wf s -> DRW i s = Ok s' -> wf s'.
Proof.
  intros (Hv & HI & Hd & Hs & Hsc & Hdr) H.
  apply DRW_Ok_inv in H
    as (_ & (_ & _ & HI' & _ & _ & Hd' & Hs' & Hdr' & Hv') & Hsc' & Hvf).
  unfold wf. rewrite HI', Hd', Hs', Hdr'.
  refine (conj _ (conj HI (conj Hd (conj Hs (conj _ Hdr))))).
  - intros j Hj. destruct (Z.eq_dec j 0xF) as [->|Hne].
    + rewrite Hvf. destruct (DRW_collide _ _ _ _ _ _); lia.
    + rewrite Hv' by exact Hne. apply Hv, Hj.
  - intros k Hk. rewrite Hsc'.
    destruct (Hsc k Hk) as [-> | ->]; destruct (DRW_hit _ _ _ _ _ k); simpl; auto.
Qed.

Lemma wf_LDK i s : wf s -> wf (LDK i s).
Proof.
  intros Hw. unfold LDK. destruct (first_key _).
  - apply wf_set_reg, Hw.
  - apply wf_set_PC, Hw.
Qed.

Lemma wf_STD i s : wf s -> wf (STD i s).
Proof. intros Hw. apply wf_set_delay; [apply wf_reg, VX_range|]; exact Hw. Qed.

Lemma wf_STS i s : wf s -> wf (STS i s).
Proof. intros Hw. apply wf_set_sound; [apply wf_reg, VX_range|]; exact Hw. Qed.

Lemma wf_IINC i s : wf s -> wf (IINC i s).
Proof. intros Hw. apply wf_set_I; [apply u16_range | apply wf_set_reg, Hw]. Qed.

Lemma wf_LDF i s : wf s -> wf (LDF i s).
Proof. intros Hw. apply wf_set_I; [apply u16_range | exact Hw]. Qed.

Lemma wf_LDI i s : wf s -> wf (LDI i s).
Proof. intros Hw. apply wf_set_I; [apply ADDR_range | exact Hw]. Qed.

Lemma wf_BCD i s s' : wf s -> BCD i s = Ok s' -> wf s'.
Proof.
  intros Hw H. apply BCD_Ok_inv in H as (_ & _ & Heq & _).
  rewrite Heq. apply wf_set_RAM, Hw.
Qed.

Lemma wf_STA i s s' : wf s -> STA i s = Ok s' -> wf s'.
Proof.
  intros Hw H. apply STA_Ok_inv in H as (_ & _ & Heq & _).
  rewrite Heq. apply wf_set_RAM, Hw.
Qed.

Lemma wf_LDA i s s' : wf s -> LDA i s = Ok s' -> wf s'.
Proof.
  intros Hw H. apply LDA_Ok_inv in H as (_ & _ & Heq & Hr).
  rewrite Heq. apply wf_set_v; [|exact Hw].
  intros j Hj. rewrite Hr. destruct (_ && _); [apply u8_range|].
  apply wf_reg; [exact Hw | unfold NUM_REGS in Hj; lia].
Qed.

Lemma wf_RET ram_base s s' : wf s -> RET ram_base s = Ok s' -> wf s'.
Proof.
  intros Hw. unfold RET, pop. destruct (_ =? STACK_LOW); [discriminate|].
  intros H. injection H as <-. apply wf_set_PC, wf_set_sp, Hw.
Qed.

Lemma wf_CALL ram_base i s s' : wf s -> CALL ram_base i s = Ok s' -> wf s'.
Proof.
  intros Hw. unfold CALL, push. destruct (_ <? STACK_UP); [discriminate|].
  intros H. injection H as <-. apply wf_set_PC, wf_set_sp, wf_set_RAM, Hw.
Qed.

#[local] Hint Resolve wf_set_reg wf_set_PC wf_set_draw wf_skip_if wf_CLS
  wf_LDK wf_STD wf_STS wf_IINC wf_LDF wf_LDI : wf_db.

Lemma wf_execute ram_base rnd i s s' :
  wf s -> execute ram_base rnd i s = Ok s' -> wf s'.
Proof.
  intros Hw Hex. unfold execute in Hex. cbv zeta in Hex.
  repeat match type of Hex with
         | context [if ?b then _ else _] => destruct b
         end;
  try discriminate Hex.
  all: try (eapply wf_RET; [exact Hw | exact Hex]).
  all: try (eapply wf_CALL; [exact Hw | exact Hex]).
  all: try (eapply wf_BCD; [exact Hw | exact Hex]).
  all: try (eapply wf_STA; [exact Hw | exact Hex]).
  all: try (eapply wf_LDA; [exact Hw | exact Hex]).
  all: try (apply DRW_bind_inv in Hex as (s1 & Hd & ->);
            apply wf_set_draw; [right; reflexivity | eapply wf_DRW; [exact Hw | exact Hd]]).
  all: injection Hex as <-.
  all: unfold JP, SE, SNEI, SR, LDB, ADDI, LDR, OR, AND, XOR, ADD, SUB, SHR,
         SUBN, SHL, SNE, JPR, RND, SKP, SKNP, LDD; eauto with wf_db.
Qed.

Lemma wf_initialize s0 : wf (initialize s0).
Proof.
  unfold wf, initialize, CLS, clear_range.
  cbn [RAM PC I v keys sp screen delay_timer sound_timer draw
       set_RAM set_PC set_I set_v set_sp set_screen set_delay set_sound
       set_draw set_keys].
  refine (conj _ (conj _ (conj _ (conj _ (conj _ _))))); try lia.
  - intros j Hj. unfold NUM_REGS in *.
    destruct (Z.leb_spec 0 j), (Z.ltb_spec j 16); simpl; lia.
  - intros k Hk.
    destruct (Z.leb_spec 0 k), (Z.ltb_spec k (WIDTH * HEIGHT)); simpl; auto; lia.
Qed.

(** In every state the machine reaches from a successful boot, V0..VF and
    both timers hold bytes, I a 16-bit value, and the 2048 framebuffer cells
    and the draw flag hold 0 or 1, whatever the ROM, the random values, the
    keys and where RAM lies. *)
Theorem reachable_wf ram_base s0 rom s :
  reachable ram_base s0 rom s -> wf s.
Proof.
  intros Hr. induction Hr as [s Hb | s s' rnd Hr IH Hs | s k Hr IH].
  - apply load_source_Ok in Hb as [_ ->]. apply wf_set_RAM, wf_initialize.
  - rewrite step_unfold in Hs. eapply wf_execute; [|exact Hs].
    apply wf_set_PC, IH.
  - apply wf_set_keys, IH.
Qed.

Lemma reachable_wf_witness :
  reachable 0x404060 zero_state jp_odd_rom jp_odd_s1 /\ wf jp_odd_s1.
Proof.
  assert (Hr : reachable 0x404060 zero_state jp_odd_rom jp_odd_s1)
    by (eapply reach_step; [apply reach_boot, jp_odd_boot | apply jp_odd_step]).
  split; [exact Hr|]. exact (reachable_wf _ _ _ _ Hr).
Defined.

(** ** Fetching and the field macros *)

(** [fetch] reads the word at PC high byte first, and the field macros
    split it into nibbles that recompose it: ADDR is its low 12 bits and
    BYTE its low 8. *)
Theorem fetch_fields_recompose s :
  0 <= RAM s (PC s) < 256 -> 0 <= RAM s (PC s + 1) < 256 ->
  let i := instr_at s in
  i = 256 * RAM s (PC s) + RAM s (PC s + 1) /\
  i = 4096 * MSN i + 256 * VX i + 16 * VY i + LSN i /\
  ADDR i = 256 * VX i + 16 * VY i + LSN i /\
  BYTE i = 16 * VY i + LSN i.
Proof.
  intros Hhi Hlo. cbv zeta.
  assert (Hw : instr_at s = 256 * RAM s (PC s) + RAM s (PC s + 1)).
  { unfold instr_at, fetch. cbn [fst].
    generalize dependent (RAM s (PC s + 1)). generalize dependent (RAM s (PC s)).
    intros hi Hhi lo Hlo. revert lo Hlo.
    apply (forall_byte (fun hi => forallb (fun lo =>
             u16 (INSTR hi lo) =? 256 * hi + lo) (zseq 256))) in Hhi;
      [|vm_compute; reflexivity].
    rewrite forallb_forall in Hhi. intros lo Hlo.
    apply Z.eqb_eq, Hhi, in_zseq, Hlo. }
  split; [exact Hw|].
  pose proof (u16_range (INSTR (RAM s (PC s)) (RAM s (PC s + 1)))) as Hr.
  change (u16 (INSTR (RAM s (PC s)) (RAM s (PC s + 1)))) with (instr_at s) in Hr.
  generalize dependent (instr_at s). intros i _ Hr.
  apply (forall_word (fun i =>
    (i =? 4096 * MSN i + 256 * VX i + 16 * VY i + LSN i) &&
    (ADDR i =? 256 * VX i + 16 * VY i + LSN i) &&
    (BYTE i =? 16 * VY i + LSN i))) in Hr; [|vm_compute; reflexivity].
  rewrite !andb_true_iff, !Z.eqb_eq in Hr. tauto.
Qed.

Lemma fetch_fields_recompose_witness :
  let s := set_RAM zero_state (upd (upd (fun _ => 0) 0 0xD1) 1 0x25) in
  0 <= RAM s (PC s) < 256 /\ 0 <= RAM s (PC s + 1) < 256 /\
  (let i := instr_at s in
   i = 256 * RAM s (PC s) + RAM s (PC s + 1) /\
   i = 4096 * MSN i + 256 * VX i + 16 * VY i + LSN i /\
   ADDR i = 256 * VX i + 16 * VY i + LSN i /\
   BYTE i = 16 * VY i + LSN i).
Proof.
  intros s.
  assert (H1 : 0 <= RAM s (PC s) < 256) by (vm_compute; split; congruence).
  assert (H2 : 0 <= RAM s (PC s + 1) < 256) by (vm_compute; split; congruence).
  split; [exact H1|]. split; [exact H2|].
  exact (fetch_fields_recompose s H1 H2).
Defined.

(** ** Skips *)

(** The three pairs of conditional skips are complementary: on the same
    state exactly one instruction of each pair moves PC over the next
    instruction, and the other leaves the state as it is. *)
Theorem skip_pairs_complementary i s :
  let next := set_PC s (u16 (PC s + 2)) in
  (SE i s = next /\ SNEI i s = s \/ SE i s = s /\ SNEI i s = next) /\
  (SR i s = next /\ SNE i s = s \/ SR i s = s /\ SNE i s = next) /\
  (SKP i s = next /\ SKNP i s = s \/ SKP i s = s /\ SKNP i s = next).
Proof.
  cbv zeta. unfold SE, SNEI, SR, SNE, SKP, SKNP, skip_if.
  split; [|split].
  - destruct (v s (VX i) =? BYTE i); cbn [negb]; auto.
  - destruct (v s (VX i) =? v s (VY i)); cbn [negb]; auto.
  - destruct (keys s (v s (VX i)) =? 0); cbn [negb]; auto.
Qed.

(** ** What a step changes besides the machine registers *)

Lemma LDK_keys_draw i s : keys (LDK i s) = keys s /\ draw (LDK i s) = draw s.
Proof. unfold LDK. destruct (first_key _); split; reflexivity. Qed.

Lemma execute_keys_draw ram_base rnd i s s' :
  MSN i <> 0xD -> execute ram_base rnd i s = Ok s' ->
  keys s' = keys s /\ draw s' = draw s.
Proof.
  intros Hd Hex. unfold execute in Hex. cbv zeta in Hex.
  rewrite (proj2 (Z.eqb_neq _ _) Hd) in Hex.
  repeat match type of Hex with
         | context [if ?b then _ else _] => destruct b
         end;
  try discriminate Hex.
  all: try (destruct (array_ops_Ok i s s' ltac:(tauto)) as (_ & _ & Hk & Hdr & _);
            split; assumption).
  all: try (unfold RET, pop in Hex; destruct (_ =? STACK_LOW);
            [discriminate | injection Hex as <-; split; reflexivity]).
  all: try (unfold CALL, push in Hex; destruct (_ <? STACK_UP);
            [discriminate | injection Hex as <-; split; reflexivity]).
  all: injection Hex as <-.
  all: first [ apply LDK_keys_draw
             | unfold CLS, JP, SE, SNEI, SR, LDB, ADDI, LDR, OR, AND, XOR, ADD,
                 SUB, SHR, SUBN, SHL, SNE, LDI, JPR, RND, SKP, SKNP, LDD, STD,
                 STS, IINC, LDF, skip_if;
               repeat match goal with
                      | |- context [if ?b then _ else _] => destruct b
                      end;
               split; reflexivity ].
Qed.

(** No instruction touches the keys, which only the host's [_set_keys]
    writes, and only DRW (Dxyn) raises the draw flag: every other
    instruction leaves it as it was. *)
Theorem step_keeps_keys_sets_draw ram_base rnd s s' :
  step ram_base rnd s = Ok s' ->
  keys s' = keys s /\ draw s' = (if MSN (instr_at s) =? 0xD then 1 else draw s).
Proof.
  rewrite step_unfold. set (i := instr_at s). clearbody i. intros Hex.
  destruct (Z.eqb_spec (MSN i) 0xD) as [Hd|Hd].
  - revert Hex. decode Hd. intros Hex.
    apply DRW_bind_inv in Hex as (s1 & Hdw & ->).
    cbn [keys draw set_draw]. split; [|reflexivity].
    exact (proj1 (proj2 (proj2 (array_ops_Ok _ _ _ (or_intror (or_intror (or_intror Hdw))))))).
  - apply (execute_keys_draw _ _ _ _ _ Hd) in Hex. exact Hex.
Qed.

Lemma step_keeps_keys_sets_draw_witness :
  step 0x404060 0 jp_odd_s0 = Ok jp_odd_s1 /\
  keys jp_odd_s1 = keys jp_odd_s0 /\
  draw jp_odd_s1 = (if MSN (instr_at jp_odd_s0) =? 0xD then 1 else draw jp_odd_s0).
Proof.
  split; [exact jp_odd_step|].
  exact (step_keeps_keys_sets_draw 0x404060 0 jp_odd_s0 jp_odd_s1 jp_odd_step).
Defined.

(** ** The host display *)

Lemma refresh_column_cells (val : Z -> Z -> Z) x n px k :
  0 <= x < EMU_W ->
  fold_left (fun px y => upd px (x + y * EMU_W) (val x y)) (zseq (Z.of_nat n)) px k =
  if (k mod EMU_W =? x) && (0 <=? k / EMU_W) && (k / EMU_W <? Z.of_nat n)
  then val x (k / EMU_W) else px k.
Proof.
  unfold EMU_W. intros Hx.
  pose proof (Z.div_mod k 640) as Hk. pose proof (Z.mod_pos_bound k 640) as Hm.
  induction n as [|n IH].
  - simpl. destruct (k mod 640 =? x), (Z.leb_spec 0 (k / 640)), (Z.ltb_spec (k / 640) 0);
      simpl; try reflexivity; lia.
  - rewrite zseq_S, fold_left_app. cbn [fold_left]. unfold upd at 1.
    destruct (Z.eqb_spec k (x + Z.of_nat n * 640)) as [->|Hne].
    + rewrite Z.mod_add, Z.mod_small, Z.div_add, Z.div_small by lia.
      rewrite Z.eqb_refl. replace (0 <=? 0 + Z.of_nat n) with true by (symmetry; apply Z.leb_le; lia).
      replace (0 + Z.of_nat n <? Z.of_nat (S n)) with true by (symmetry; apply Z.ltb_lt; lia).
      reflexivity.
    + rewrite IH.
      destruct (Z.eqb_spec (k mod 640) x), (Z.leb_spec 0 (k / 640)),
               (Z.ltb_spec (k / 640) (Z.of_nat n)),
               (Z.ltb_spec (k / 640) (Z.of_nat (S n))); simpl; try reflexivity; lia.
Qed.

Lemma refresh_columns_cells (val : Z -> Z -> Z) m px k :
  (m <= 640)%nat ->
  fold_left (fun px x =>
    fold_left (fun px y => upd px (x + y * EMU_W) (val x y)) (zseq EMU_H) px)
    (zseq (Z.of_nat m)) px k =
  if (k mod EMU_W <? Z.of_nat m) && (0 <=? k / EMU_W) && (k / EMU_W <? EMU_H)
  then val (k mod EMU_W) (k / EMU_W) else px k.
Proof.
  intros Hm. pose proof (Z.mod_pos_bound k EMU_W) as Hmod.
  assert (HW : 0 < EMU_W) by (unfold EMU_W; lia).
  induction m as [|m IH].
  - simpl. destruct (Z.ltb_spec (k mod EMU_W) 0); [lia|]. reflexivity.
  - rewrite zseq_S, fold_left_app. cbn [fold_left].
    change (zseq EMU_H) with (zseq (Z.of_nat 320)).
    rewrite refresh_column_cells by (unfold EMU_W; lia).
    change (zseq (Z.of_nat 320)) with (zseq EMU_H).
    rewrite IH by lia. change (Z.of_nat 320) with EMU_H.
    destruct (Z.eqb_spec (k mod EMU_W) (Z.of_nat m)) as [->|Hne].
    + replace (Z.of_nat m <? Z.of_nat m) with false by (symmetry; apply Z.ltb_ge; lia).
      replace (Z.of_nat m <? Z.of_nat (S m)) with true by (symmetry; apply Z.ltb_lt; lia).
      destruct (0 <=? k / EMU_W), (k / EMU_W <? EMU_H); reflexivity.
    + cbn [andb].
      destruct (Z.ltb_spec (k mod EMU_W) (Z.of_nat m)),
               (Z.ltb_spec (k mod EMU_W) (Z.of_nat (S m))); simpl; try reflexivity; lia.
Qed.

(** [refresh_screen] paints each of the 640 x 320 emulator pixels from the
    framebuffer cell [(x / 10, y / 10)], which always lies inside the 2048
    cells, black when the cell is set and white otherwise, and leaves every
    pixel outside the window as it was.  So cells past the framebuffer,
    which DRW may write, are never shown. *)
Theorem refresh_screen_shows_cells scr px :
  (forall x y, 0 <= x < EMU_W -> 0 <= y < EMU_H ->
     0 <= x / 10 + (y / 10) * WIDTH < WIDTH * HEIGHT /\
     refresh_screen scr px (x + y * EMU_W) =
       if scr (x / 10 + (y / 10) * WIDTH) =? 0 then WHITE else BLACK) /\
  (forall k, ~ (0 <= k < EMU_W * EMU_H) -> refresh_screen scr px k = px k).
Proof.
  unfold refresh_screen. change (zseq EMU_W) with (zseq (Z.of_nat 640)).
  split.
  - intros x y Hx Hy. unfold EMU_W, EMU_H, WIDTH, HEIGHT in *.
    split.
    + assert (0 <= x / 10 < 64) by (split; [apply Z.div_pos | apply Z.div_lt_upper_bound]; lia).
      assert (0 <= y / 10 < 32) by (split; [apply Z.div_pos | apply Z.div_lt_upper_bound]; lia).
      lia.
    + rewrite (refresh_columns_cells _ 640) by lia. unfold EMU_W, EMU_H.
      rewrite Z.mod_add, Z.mod_small, Z.div_add, Z.div_small by lia.
      replace (x <? Z.of_nat 640) with true by (symmetry; apply Z.ltb_lt; lia).
      replace (0 <=? 0 + y) with true by (symmetry; apply Z.leb_le; lia).
      replace (0 + y <? 320) with true by (symmetry; apply Z.ltb_lt; lia).
      cbn [andb]. replace (0 + y) with y by lia.
      destruct (scr (x / 10 + y / 10 * 64) =? 0); reflexivity.
  - intros k Hk. rewrite (refresh_columns_cells _ 640) by lia.
    unfold EMU_W, EMU_H in *.
    pose proof (Z.div_mod k 640 ltac:(lia)) as Hd.
    pose proof (Z.mod_pos_bound k 640 ltac:(lia)) as Hm.
    destruct (Z.ltb_spec (k mod 640) (Z.of_nat 640)), (Z.leb_spec 0 (k / 640)),
             (Z.ltb_spec (k / 640) 320); cbn [andb]; try lia.
    all: unfold clear_range; change (640 * 320 / 4) with 51200.
    all: destruct (Z.leb_spec 0 k), (Z.ltb_spec k 51200); cbn [andb]; try reflexivity; lia.
Qed.

Lemma refresh_screen_shows_cells_witness :
  0 <= 15 < EMU_W /\ 0 <= 25 < EMU_H /\
  0 <= 15 / 10 + (25 / 10) * WIDTH < WIDTH * HEIGHT /\
  refresh_screen (upd (fun _ => 0) 129 1) (fun _ => 7) (15 + 25 * EMU_W) =
    if upd (fun _ => 0) 129 1 (15 / 10 + (25 / 10) * WIDTH) =? 0 then WHITE else BLACK.
Proof.
  assert (H1 : 0 <= 15 < EMU_W) by (unfold EMU_W; lia).
  assert (H2 : 0 <= 25 < EMU_H) by (unfold EMU_H; lia).
  split; [exact H1|]. split; [exact H2|].
  exact (proj1 (refresh_screen_shows_cells (upd (fun _ => 0) 129 1) (fun _ => 7)) 15 25 H1 H2).
Defined.

(** ** Drawing on a cleared screen *)



(** ** Which instructions write memory *)

Lemma MSN_range i : 0 <= MSN i < 16.
Proof.
  unfold MSN. rewrite Z.shiftr_land. change (Z.shiftr 0xF000 12) with (Z.ones 4).
  rewrite Z.land_ones by lia. apply Z.mod_pos_bound. lia.
Qed.

Lemma RAM_frame_ops i s : RAM (CLS s) = RAM s /\ RAM (LDK i s) = RAM s.
Proof.
  split; [reflexivity|]. unfold LDK. destruct (first_key _); reflexivity.
Qed.

Lemma execute_RAM_writes ram_base rnd i s s' k :
  execute ram_base rnd i s = Ok s' -> RAM s' k <> RAM s k ->
  (MSN i = 0x2 /\ (k = sp s \/ k = sp s + 1)) \/
  (MSN i = 0xF /\ BYTE i = 0x33 /\ I s <= k <= I s + 2) \/
  (MSN i = 0xF /\ BYTE i = 0x55 /\ I s <= k <= I s + VX i).
Proof.
  intros Hex Hk. pose proof (VX_nonneg i) as Hx0.
  destruct (RAM_frame_ops i s) as (F1 & F4).
  unfold execute in Hex. cbv zeta in Hex.
  repeat match type of Hex with
         | context [if ?b then _ else _] => let E := fresh "E" in destruct b eqn:E
         end;
  try discriminate Hex.
  all: try (apply DRW_bind_inv in Hex as (s1 & Hd & ->);
            apply DRW_Ok_inv in Hd as (_ & (HR & _) & _);
            cbn [RAM set_draw] in Hk; rewrite HR in Hk; contradiction).
  all: try (apply LDA_Ok_inv in Hex as (_ & _ & Heq & _); rewrite Heq in Hk;
            exfalso; apply Hk; reflexivity).
  all: try (unfold RET, pop in Hex; destruct (_ =? STACK_LOW);
            [discriminate | injection Hex as <-; contradiction]).
  all: try (unfold CALL, push in Hex; destruct (_ <? STACK_UP);
            [discriminate | injection Hex as <-]).
  all: try (injection Hex as <-).
  all: cbn [RAM set_draw set_PC set_sp set_RAM] in Hk.
  all: try rewrite F1 in Hk; try rewrite F4 in Hk.
  all: try (unfold JP, SE, SNEI, SR, LDB, ADDI, LDR, OR, AND, XOR, ADD, SUB, SHR,
              SUBN, SHL, SNE, LDI, JPR, RND, SKP, SKNP, LDD, STD, STS, IINC, LDF,
              skip_if in Hk;
            repeat match type of Hk with
                   | context [if ?b then _ else _] => destruct b
                   end;
            contradiction).
  all: repeat match goal with
              | H : (_ =? _) = true |- _ => apply Z.eqb_eq in H
              | H : (_ =? _) = false |- _ => apply Z.eqb_neq in H
              end.
  all: pose proof (MSN_range i).
  - (* CALL *)
    left. split; [assumption|]. unfold store16, upd in Hk.
    destruct (Z.eqb_spec k (sp s + 1)); [right; assumption|].
    destruct (Z.eqb_spec k (sp s)); [left; assumption | contradiction].
  - (* BCD *)
    right; left. apply BCD_Ok_inv in Hex as (_ & _ & _ & Hr). rewrite Hr in Hk.
    repeat split; try assumption; try lia.
    all: destruct (Z.eqb_spec k (I s + 2)), (Z.eqb_spec k (I s + 1)),
           (Z.eqb_spec k (I s)); try contradiction; lia.
  - (* STA *)
    right; right. apply STA_Ok_inv in Hex as (_ & _ & _ & Hr). rewrite Hr in Hk.
    repeat split; try assumption; try lia.
    all: destruct (Z.leb_spec (I s) k), (Z.leb_spec k (I s + VX i));
           cbn [andb] in Hk; try contradiction; lia.
Qed.

(** Only CALL (2nnn), which stores the return address in the two bytes at
    [sp], LD B,X (Fx33) and LD [I],X (Fx55) write memory: every other
    instruction leaves all of RAM unchanged, so a program can modify itself
    only through I or by nesting calls down into its own code. *)
Theorem step_RAM_writes ram_base rnd s s' k :
  step ram_base rnd s = Ok s' -> RAM s' k <> RAM s k ->
  let i := instr_at s in
  (MSN i = 0x2 /\ (k = sp s \/ k = sp s + 1)) \/
  (MSN i = 0xF /\ BYTE i = 0x33 /\ I s <= k <= I s + 2) \/
  (MSN i = 0xF /\ BYTE i = 0x55 /\ I s <= k <= I s + VX i).
Proof.
  rewrite step_unfold. intros Hex Hk.
  exact (execute_RAM_writes _ _ _ _ _ _ Hex Hk).
Qed.

(** The state after LD B,V0 with I = 0x300 and V0 = 255. *)
Definition bcd_ok_s3 : state := ok_or (step 0x404060 0 bcd_ok_s2) zero_state.

Lemma step_RAM_writes_witness :
  step 0x404060 0 bcd_ok_s2 = Ok bcd_ok_s3 /\ RAM bcd_ok_s3 0x300 <> RAM bcd_ok_s2 0x300 /\
  (let i := instr_at bcd_ok_s2 in
   (MSN i = 0x2 /\ (0x300 = sp bcd_ok_s2 \/ 0x300 = sp bcd_ok_s2 + 1)) \/
   (MSN i = 0xF /\ BYTE i = 0x33 /\ I bcd_ok_s2 <= 0x300 <= I bcd_ok_s2 + 2) \/
   (MSN i = 0xF /\ BYTE i = 0x55 /\ I bcd_ok_s2 <= 0x300 <= I bcd_ok_s2 + VX i)).
Proof.
  assert (H1 : step 0x404060 0 bcd_ok_s2 = Ok bcd_ok_s3) by (vm_compute; reflexivity).
  assert (H2 : RAM bcd_ok_s3 0x300 <> RAM bcd_ok_s2 0x300) by (vm_compute; congruence).
  split; [exact H1|]. split; [exact H2|].
  exact (step_RAM_writes 0x404060 0 bcd_ok_s2 bcd_ok_s3 0x300 H1 H2).
Defined.
